(** * SciDB-Py [relational.py]: the join-plan construction of [merge]

    A shallow embedding of [scidbpy/relational.py] ([_prepare_join_schema],
    [_apply_suffix] and [merge]) over array schemas.  An array handle is
    represented by its schema; every operation the code performs on a handle
    or on one of its collaborators is recorded, in program order, in a trace
    of calls, and exceptions are explicit results. *)

From stdpp Require Import gmap strings list.

Open Scope string_scope.
Open Scope list_scope.

(** ** Python string operations used by the code *)

Module PyStr.

(** [a.endswith(suffix)] *)
Definition endswith (a suffix : string) : bool :=
  let n := String.length a in
  let m := String.length suffix in
  (m <=? n)%nat && String.eqb (String.substring (n - m) m a) suffix.

(** [sub in s] for strings: [sub] occurs in [s] as a contiguous substring. *)
Fixpoint contains (sub s : string) : bool :=
  String.prefix sub s ||
  match s with
  | EmptyString => false
  | String _ s' => contains sub s'
  end.

(** Scan of [s.replace(old, new)] for a non-empty [old]: [skip] counts the
    characters of an occurrence of [old] that are still to be dropped. *)
Fixpoint replace_scan (old new : string) (skip : nat) (s : string) : string :=
  match s with
  | EmptyString => EmptyString
  | String c s' =>
      match skip with
      | S k => replace_scan old new k s'
      | O =>
          if String.prefix old s
          then new +:+ replace_scan old new (String.length old - 1) s'
          else String c (replace_scan old new 0 s')
      end
  end.

(** [s.replace('', new)]: [new] is inserted before every character and at
    the end. *)
Fixpoint intersperse (new s : string) : string :=
  match s with
  | EmptyString => new
  | String c s' => new +:+ String c (intersperse new s')
  end.

(** [s.replace(old, new)]: every non-overlapping occurrence of [old], found
    from left to right, is replaced by [new]. *)
Definition replace (s old new : string) : string :=
  match old with
  | EmptyString => intersperse new s
  | String _ _ => replace_scan old new 0 s
  end.

End PyStr.

(** ** Data model *)

(** The schema behind an array handle: the ordered dimension names and
    [sdbtype.full_rep], the ordered attributes as (name, type, nullable). *)
Record SciDBArray := mkArray {
  dim_names : list string;
  full_rep : list (string * string * bool)
}.

Definition att_name (t : string * string * bool) : string := t.1.1.

Definition att_names (a : SciDBArray) : list string := att_name <$> full_rep a.

(** A one-column index array ([lidx], [ridx], [idx]): its single attribute
    holds the distinct key values. *)
Record IndexArray := mkIndex { index_column : string }.

(** A join-key argument of [merge]: a string or a list of strings
    ([None] is the absent [option]). *)
Inductive KeyArg :=
| KName (s : string)
| KNames (l : list string).

(** The exceptions a call can end with: [NotImplementedError] and
    [ValueError] are raised by the code of [relational.py] itself;
    [Propagated] is a failure reported by a collaborator, which the code
    passes on unchanged, named after the operation that failed. *)
Inductive Error :=
| NotImplementedError (msg : string)
| ValueError (msg : string)
| Propagated (operation : string).

(** One call made by the code on a handle or a collaborator: a property
    read on an array or on an index array, a [logging] call, or an operator,
    method or helper invoked with the given names. *)
Inductive Call :=
| Read (property : string) (a : SciDBArray)
| ReadIndex (property : string) (x : IndexArray)
| Debug (msg : string)
| Invoke (operation : string) (args : list string).

Inductive Outcome (A : Type) :=
| Raise (e : Error)
| Return (a : A).
Arguments Raise {A} e.
Arguments Return {A} a.

(** Computations: the calls issued so far and how the computation ended. *)
Definition M (A : Type) : Type := list Call * Outcome A.

Definition M_ret {A} (a : A) : M A := ([], Return a).

Definition M_bind {A B} (f : A → M B) (m : M A) : M B :=
  match m with
  | (calls, Raise e) => (calls, Raise e)
  | (calls, Return a) => let '(calls', o) := f a in (calls ++ calls', o)
  end.

#[global] Instance M_mret : MRet M := @M_ret.
#[global] Instance M_mbind : MBind M := @M_bind.

Definition raise {A} (e : Error) : M A := ([], Raise e).
Definition call (c : Call) : M unit := ([c], Return tt).
Definition debug (msg : string) : M unit := call (Debug msg).

Definition trace {A} (m : M A) : list Call := m.1.
Definition outcome {A} (m : M A) : Outcome A := m.2.

(** A computation that returns [a], whatever it calls. *)
Definition returns {A} (m : M A) (a : A) : Prop := outcome m = Return a.

(** ** Collaborators *)

(** Introspection: [x.att_names], [x.dim_names], [x.sdbtype.full_rep]. *)
Definition get_att_names (x : SciDBArray) : M (list string) :=
  call (Read "att_names" x);; mret (att_names x).
Definition get_dim_names (x : SciDBArray) : M (list string) :=
  call (Read "dim_names" x);; mret (dim_names x).
Definition get_full_rep (x : SciDBArray) : M (list (string * string * bool)) :=
  call (Read "sdbtype.full_rep" x);; mret (full_rep x).

(** Modelled from the spec: [utils.as_list], which is not in the source
    file; a single name becomes a one-element list (the key arguments are
    "None, string, or list of strings"). *)
Definition as_list (k : KeyArg) : list string :=
  match k with
  | KName s => [s]
  | KNames l => l
  end.

(** Modelled from the spec: [utils.interleave], not in the source file;
    "the interleaved (left-key, right-key) dimension-name pairs". *)
Fixpoint interleave (ls rs : list string) : list string :=
  match ls, rs with
  | l :: ls', r :: rs' => l :: r :: interleave ls' rs'
  | _, _ => []
  end.

(** The (old, new) pairs of a flat rename argument list. *)
Fixpoint rename_pairs (args : list string) : list (string * string) :=
  match args with
  | old :: new :: rest => (old, new) :: rename_pairs rest
  | _ => []
  end.

Definition rename_with (pairs : list (string * string)) (nm : string) : string :=
  match list_find (λ p, p.1 = nm) pairs with
  | Some (_, p) => p.2
  | None => nm
  end.

(** Modelled from the spec: [SciDBArray.attribute_rename], not in the source
    file; "pairs of old/new names", returning a new handle. *)
Definition attribute_rename_schema (x : SciDBArray) (args : list string) : SciDBArray :=
  mkArray (dim_names x)
          ((λ t, (rename_with (rename_pairs args) (att_name t), t.1.2, t.2)) <$> full_rep x).

(** Modelled from the spec: [SciDBArray.dimension_rename], not in the source
    file; "pairs of old/new names", returning a new handle. *)
Definition dimension_rename_schema (x : SciDBArray) (args : list string) : SciDBArray :=
  mkArray (rename_with (rename_pairs args) <$> dim_names x) (full_rep x).

(** Modelled from the spec: [SciDBArray.project], not in the source file;
    the result keeps the named attributes. *)
Definition project_schema (x : SciDBArray) (names : list string) : SciDBArray :=
  mkArray (dim_names x)
          (filter (λ t, att_name t ∈ names) (full_rep x)).

(** Modelled from the spec: [SciDBArray.unpack], not in the source file;
    "flatten multi-dim index to single dimension": the result has the one
    dimension [idx], and the former dimensions become integer attributes in
    front of the former attributes. *)
Definition unpack_schema (x : SciDBArray) (idx : string) : SciDBArray :=
  mkArray [idx] (((λ d, (d, "int64", false)) <$> dim_names x) ++ full_rep x).

(** The right-hand names of an interleaved key list. *)
Fixpoint right_keys (args : list string) : list string :=
  match args with
  | _ :: r :: rest => r :: right_keys rest
  | _ => []
  end.

(** Modelled from the spec: [robust.cross_join], not in the source file;
    the native join equates the paired dimensions: the result carries the
    dimensions of the left array, the dimensions of the right array that are
    not join keys, and the attributes of both. *)
Definition cross_join_schema (l r : SciDBArray) (args : list string) : SciDBArray :=
  mkArray (dim_names l ++ filter (λ d, d ∉ right_keys args) (dim_names r))
          (full_rep l ++ full_rep r).

(** The declared type of a column: the type of the attribute of that name,
    and the integer type of the engine for a dimension. *)
Definition declared_type (x : SciDBArray) (name : string) : option string :=
  match list_find (λ t, att_name t = name) (full_rep x) with
  | Some (_, t) => Some t.1.2
  | None => if bool_decide (name ∈ dim_names x) then Some "int64" else None
  end.

(** An integer type, as the code tells one: the type name contains [int]
    (the signed and unsigned integer types of the engine, [int8] to
    [uint64]). *)
Definition integer_type (typ : string) : bool := PyStr.contains "int" typ.

(** Modelled from the spec: the names [schema_utils.to_dimensions] can turn
    into dimensions.  A dimension is "integer-typed", so a name is accepted
    when it is a dimension already or an attribute of an integer type. *)
Definition promotable (x : SciDBArray) (name : string) : bool :=
  match declared_type x name with
  | Some typ => integer_type typ
  | None => false
  end.

(** Modelled from the spec: [schema_utils.to_dimensions], not in the source
    file; "converting named attributes into dimensions".  The promoted
    attributes follow the dimensions of the array, in the order of the
    names given. *)
Definition to_dimensions_schema (x : SciDBArray) (names : list string) : SciDBArray :=
  mkArray (dim_names x ++ filter (λ k, k ∈ att_names x) names)
          (filter (λ t, att_name t ∉ names) (full_rep x)).

(** Modelled from the spec: the [index_lookup] operator, not in the source
    file; it "materialize[s] a new integer attribute holding the matched
    surrogate key" under the given name. *)
Definition index_lookup_schema (x : SciDBArray) (out : string) : SciDBArray :=
  mkArray (dim_names x) (full_rep x ++ [(out, "int64", true)]).

Definition attribute_rename (x : SciDBArray) (args : list string) : M SciDBArray :=
  call (Invoke "attribute_rename" args);; mret (attribute_rename_schema x args).
Definition dimension_rename (x : SciDBArray) (args : list string) : M SciDBArray :=
  call (Invoke "dimension_rename" args);; mret (dimension_rename_schema x args).
Definition project (x : SciDBArray) (names : list string) : M SciDBArray :=
  call (Invoke "project" names);; mret (project_schema x names).
Definition unpack (x : SciDBArray) (idx : string) : M SciDBArray :=
  call (Invoke "unpack" [idx]);; mret (unpack_schema x idx).
Definition cross_join (l r : SciDBArray) (args : list string) : M SciDBArray :=
  call (Invoke "cross_join" args);; mret (cross_join_schema l r args).
(** Modelled from the spec: a name that cannot become a dimension (a name
    that is no column of the array, or an attribute of another type than an
    integer type) is the "type mismatch" of the Engine-Propagated errors:
    the collaborator fails and the failure is passed on. *)
Definition to_dimensions (x : SciDBArray) (names : list string) : M SciDBArray :=
  call (Invoke "to_dimensions" names);;
  if forallb (promotable x) names then mret (to_dimensions_schema x names)
  else raise (Propagated "to_dimensions").
Definition index_lookup (x : SciDBArray) (alias : string) (idx : IndexArray)
    (key out options : string) : M SciDBArray :=
  call (Invoke "as_" [alias]);;
  call (Invoke "index_lookup" [index_column idx; key; out; options]);;
  mret (index_lookup_schema x out).

(** Modelled from the spec: the operators on the one-column index arrays,
    not in the source file: [x[name]], [sort], [uniq], [eval], [boundify],
    [hstack], [attribute_rename] and the read [x.att_names[0]] of the sole
    column; each operator yields "a 1-column index array". *)
Definition getitem (x : SciDBArray) (name : string) : M IndexArray :=
  call (Invoke "getitem" [name]);; mret (mkIndex name).
Definition index_op (operation : string) (x : IndexArray) : M IndexArray :=
  call (Invoke operation [index_column x]);; mret x.
Definition index_first_column (x : IndexArray) : M string :=
  call (ReadIndex "att_names" x);; mret (index_column x).
Definition index_rename (x : IndexArray) (old new : string) : M IndexArray :=
  call (Invoke "attribute_rename" [old; new]);;
  mret (mkIndex (rename_with [(old, new)] (index_column x))).
Definition hstack (x y : IndexArray) : M IndexArray :=
  call (Invoke "hstack" [index_column x; index_column y]);; mret x.

(** [dict((nm, typ) for nm, typ, _ in full_rep)]: a later entry for a name
    replaces an earlier one. *)
Definition type_dict (rep : list (string * string * bool)) : gmap string string :=
  foldl (λ d t, <[att_name t := t.1.2]> d) ∅ rep.

(** [set(x.att_names) | set(x.dim_names)], as computed without reading. *)
Definition names (x : SciDBArray) : gset string :=
  list_to_set (att_names x) ∪ list_to_set (dim_names x).

Section Relational.

(** Modelled from the spec: [utils._new_attribute_label], not in the source
    file; "a unique-name allocator [...] guaranteeing the returned name
    collides with nothing in the given arrays".  The allocator is a
    parameter; its guarantee is assumed where a proof needs it. *)
Variable new_attribute_label : string → SciDBArray → string.

Definition _new_attribute_label (hint : string) (x : SciDBArray) : M string :=
  call (Invoke "_new_attribute_label" [hint]);; mret (new_attribute_label hint x).

(** ** [_prepare_join_schema] *)

(** The state the loop of [_prepare_join_schema] rebinds:
    [left], [right], [new_left], [new_right]. *)
Definition JoinState : Type := SciDBArray * SciDBArray * list string * list string.

(** The test of line 21: [l not in dt or 'int' in dt[l]]. *)
Definition skips_surrogate (dt : gmap string string) (l : string) : bool :=
  match dt !! l with
  | None => true
  | Some typ => PyStr.contains "int" typ
  end.

(** Lines 24 to 51: one non-skipped iteration at position [i].  The handle
    accessors [left.afl] and [left.interface] of lines 15 and 16 only name
    the operator namespaces and are not recorded. *)
Definition build_surrogate (i : nat) (l r : string) (st : JoinState) : M JoinState :=
  let '(left0, right0, new_left, new_right) := st in
  left_att ← _new_attribute_label (l +:+ "_idx") left0;
  right_att ← _new_attribute_label (r +:+ "_idx") right0;
  debug "Build category variable 1";;
  lidx ← getitem left0 l;
  lidx ← index_op "sort" lidx;
  lidx ← index_op "eval" lidx;
  lidx ← index_op "uniq" lidx;
  lidx ← index_op "eval" lidx;
  lidx ← index_op "boundify" lidx;
  debug "Build category variable 2";;
  ridx ← getitem right0 r;
  ridx ← index_op "sort" ridx;
  ridx ← index_op "uniq" ridx;
  ridx ← index_op "eval" ridx;
  ridx ← index_op "boundify" ridx;
  ridx ← index_op "eval" ridx;
  debug "Rename";;
  old ← index_first_column ridx;
  new ← index_first_column lidx;
  ridx ← index_rename ridx old new;
  ridx ← index_op "eval" ridx;
  debug "Join";;
  idx ← hstack lidx ridx;
  idx ← index_op "sort" idx;
  idx ← index_op "uniq" idx;
  debug "index lookup L";;
  left1 ← index_lookup left0 "L" idx ("L." +:+ l) left_att "'index_sorted=true'";
  let new_left := <[i := left_att]> new_left in
  debug "index lookup R";;
  right1 ← index_lookup right0 "R" idx ("R." +:+ r) right_att "'index_sorted=true'";
  let new_right := <[i := right_att]> new_right in
  mret (left1, right1, new_left, new_right).

(** Lines 20 to 51: [for i, (l, r) in enumerate(zip(left_on, right_on))]. *)
Fixpoint join_keys_loop (dt : gmap string string) (i : nat)
    (left_on right_on : list string) (st : JoinState) : M JoinState :=
  match left_on, right_on with
  | l :: left_on', r :: right_on' =>
      st ← (if skips_surrogate dt l then mret st else build_surrogate i l r st);
      join_keys_loop dt (S i) left_on' right_on' st
  | _, _ => mret st
  end.

Definition _prepare_join_schema (left right : SciDBArray)
    (left_on right_on : list string) : M JoinState :=
  let new_left := left_on in
  let new_right := right_on in
  rep ← get_full_rep left;
  let dt := type_dict rep in
  '(left1, right1, new_left, new_right) ←
    join_keys_loop dt 0 left_on right_on (left, right, new_left, new_right);
  debug "dimensionify";;
  left2 ← to_dimensions left1 new_left;
  right2 ← to_dimensions right1 new_right;
  mret (left2, right2, new_left, new_right).

(** ** [_apply_suffix] *)

(** The generator [(item for d in dups if d in <names of x> for item in
    (d, d + suffix))]; the names are read once for every [d]. *)
Fixpoint rename_args (read : M (list string)) (dups : list string)
    (suffix : string) : M (list string) :=
  match dups with
  | [] => mret []
  | d :: dups' =>
      present ← read;
      rest ← rename_args read dups' suffix;
      mret ((if bool_decide (d ∈ present) then [d; d +:+ suffix] else []) ++ rest)
  end.

Definition _relabel (x : SciDBArray) (dups : list string) (suffix : string)
    : M SciDBArray :=
  args ← rename_args (get_att_names x) dups suffix;
  x ← attribute_rename x args;
  args ← rename_args (get_dim_names x) dups suffix;
  x ← dimension_rename x args;
  mret x.

(** [set(x.att_names) | set(x.dim_names)] *)
Definition read_names (x : SciDBArray) : M (gset string) :=
  atts ← get_att_names x;
  dims ← get_dim_names x;
  mret (list_to_set atts ∪ list_to_set dims).

Definition suffix_left_on (left_on right_on : list string) (suffix : string)
    : list string :=
  (λ l, if bool_decide (l ∉ right_on) then l else l +:+ suffix) <$> left_on.

Definition suffix_right_on (left_on_old right_on : list string) (suffix : string)
    : list string :=
  (λ r, if bool_decide (r ∉ left_on_old) then r else r +:+ suffix) <$> right_on.

Definition _apply_suffix (left right : SciDBArray) (left_on right_on : list string)
    (suffixes : string * string) : M JoinState :=
  lnames ← read_names left;
  rnames ← read_names right;
  let left_on_old := left_on in
  let left_on := suffix_left_on left_on right_on suffixes.1 in
  let right_on := suffix_right_on left_on_old right_on suffixes.2 in
  let duplicates := elements (lnames ∩ rnames) in
  new_left ← _relabel left duplicates suffixes.1;
  new_right ← _relabel right duplicates suffixes.2;
  mret (new_left, new_right, left_on, right_on).

(** ** [merge] *)

(** Truth value of the [on] argument in [on or list(lnames & rnames)]. *)
Definition truthy (on : option KeyArg) : bool :=
  match on with
  | None => false
  | Some (KName s) => negb (String.eqb s "")
  | Some (KNames l) => negb (bool_decide (l = []))
  end.

(** Lines 195 to 200: the first name of [keys] missing from [present]
    raises. *)
Fixpoint check_names (msg : string) (keys : list string) (present : gset string)
    : M unit :=
  match keys with
  | [] => mret tt
  | k :: keys' =>
      if bool_decide (k ∉ present) then raise (ValueError (msg +:+ k))
      else check_names msg keys' present
  end.

(** Lines 177 to 193: the key lists resolved from the arguments. *)
Definition resolve_keys (lnames rnames : gset string)
    (on left_on right_on : option KeyArg) : M (list string * list string) :=
  if (bool_decide (left_on ≠ None) || bool_decide (right_on ≠ None))
       && bool_decide (on ≠ None)
  then raise (ValueError "Cannot specify left_on/right_on with on")
  else
    match left_on, right_on with
    | None, None =>
        let on := match on with
                  | Some k =>
                      if truthy on then k else KNames (elements (lnames ∩ rnames))
                  | None => KNames (elements (lnames ∩ rnames))
                  end in
        let on := as_list on in
        mret (on, on)
    | Some left_on, Some right_on =>
        let left_on := as_list left_on in
        let right_on := as_list right_on in
        if bool_decide (length left_on ≠ length right_on)
        then raise (ValueError "left_on and right_on must have the same number of items")
        else mret (left_on, right_on)
    | _, _ => raise (ValueError "Must specify both left_on and right_on")
    end.

(** Lines 229 to 235: the rename list of the final suffix clean-up; the
    attribute names are read again for every name that ends in the left
    suffix. *)
Fixpoint suffix_renames (result : SciDBArray) (atts : list string)
    (suffixes : string * string) : M (list string) :=
  match atts with
  | [] => mret []
  | a :: atts' =>
      if negb (PyStr.endswith a suffixes.1) then suffix_renames result atts' suffixes
      else
        present ← get_att_names result;
        rest ← suffix_renames result atts' suffixes;
        mret ((if bool_decide (PyStr.replace a suffixes.1 suffixes.2 ∉ present)
               then [a; PyStr.replace a suffixes.1 ""] else []) ++ rest)
  end.

(** Lines 209 to 211: [keep]. *)
Definition read_keep (left right : SciDBArray) (right_on : list string)
    : M (gset string) :=
  la ← get_att_names left;
  ld ← get_dim_names left;
  rd ← get_dim_names right;
  ra ← get_att_names right;
  let keep : gset string :=
    list_to_set la ∪ list_to_set ld ∪ list_to_set rd ∪ list_to_set ra in
  mret (keep ∖ list_to_set right_on).

(** Lines 202 to 225: the pipeline up to the projection on [keep]. *)
Definition merge_projected (left right : SciDBArray) (left_on right_on : list string)
    (suffixes : string * string) : M SciDBArray :=
  debug "Applying suffixes";;
  '(left1, right1, left_on, right_on) ←
    _apply_suffix left right left_on right_on suffixes;
  keep ← read_keep left1 right1 right_on;
  debug "Preparing categorical attributes";;
  '(left2, right2, left_on, right_on) ←
    _prepare_join_schema left1 right1 left_on right_on;
  debug "Performing cross join";;
  result ← cross_join left2 right2 (interleave left_on right_on);
  debug "Dropping supurious attributes";;
  idx ← _new_attribute_label "_row" result;
  result ← unpack result idx;
  atts ← get_att_names result;
  project result (filter (λ a, a ∈ keep) atts).

(** Lines 227 to 238: the final suffix clean-up. *)
Definition drop_suffixes (result : SciDBArray) (suffixes : string * string)
    : M SciDBArray :=
  debug "Dropping suffixes";;
  atts ← get_att_names result;
  renames ← suffix_renames result atts suffixes;
  attribute_rename result renames.

(** Lines 174 to 238: [merge] once [lnames] and [rnames] are computed. *)
Definition merge_checked (lnames rnames : gset string) (left right : SciDBArray)
    (on left_on right_on : option KeyArg) (how : string)
    (suffixes : string * string) : M SciDBArray :=
  if bool_decide (how ≠ "inner")
  then raise (NotImplementedError "Only inner joins are supported for now.")
  else
    '(left_on, right_on) ← resolve_keys lnames rnames on left_on right_on;
    check_names "Left array join name is invalid: " left_on lnames;;
    check_names "Right array join name is invalid: " right_on rnames;;
    result ← merge_projected left right left_on right_on suffixes;
    drop_suffixes result suffixes.

Definition merge (left right : SciDBArray) (on left_on right_on : option KeyArg)
    (how : string) (suffixes : string * string) : M SciDBArray :=
  lnames ← read_names left;
  rnames ← read_names right;
  merge_checked lnames rnames left right on left_on right_on how suffixes.

End Relational.

(** ** A concrete allocator *)

(** An allocator that meets the guarantee asked of [_new_attribute_label]:
    the hint itself when it is free, and otherwise the hint extended beyond
    the length of every name of the array.  It is used to run the model on
    concrete inputs. *)
Fixpoint zeros (n : nat) : string :=
  match n with
  | O => EmptyString
  | S k => "0" +:+ zeros k
  end.

Definition longest (l : list string) : nat :=
  foldr (λ s n, String.length s `max` n) 0 l.

Definition fresh_label (hint : string) (x : SciDBArray) : string :=
  if bool_decide (hint ∈ names x) then
    hint +:+ "_" +:+ zeros (longest (att_names x ++ dim_names x))
  else hint.

(** ** The values the computations return *)

(** The argument list built by the generator of [_relabel]. *)
Definition relabel_args (present dups : list string) (suffix : string) : list string :=
  flat_map (λ d, if bool_decide (d ∈ present) then [d; d +:+ suffix] else []) dups.

Definition relabel_schema (x : SciDBArray) (dups : list string) (suffix : string)
    : SciDBArray :=
  let x1 := attribute_rename_schema x (relabel_args (att_names x) dups suffix) in
  dimension_rename_schema x1 (relabel_args (dim_names x1) dups suffix).

Definition apply_suffix_state (left right : SciDBArray) (left_on right_on : list string)
    (suffixes : string * string) : JoinState :=
  let duplicates := elements (names left ∩ names right) in
  (relabel_schema left duplicates suffixes.1,
   relabel_schema right duplicates suffixes.2,
   suffix_left_on left_on right_on suffixes.1,
   suffix_right_on left_on right_on suffixes.2).

Definition surrogate_state (alloc : string → SciDBArray → string) (i : nat)
    (l r : string) (st : JoinState) : JoinState :=
  let '(left0, right0, new_left, new_right) := st in
  let left_att := alloc (l +:+ "_idx") left0 in
  let right_att := alloc (r +:+ "_idx") right0 in
  (index_lookup_schema left0 left_att, index_lookup_schema right0 right_att,
   <[i := left_att]> new_left, <[i := right_att]> new_right).

Fixpoint join_keys_state (alloc : string → SciDBArray → string)
    (dt : gmap string string) (i : nat) (left_on right_on : list string)
    (st : JoinState) : JoinState :=
  match left_on, right_on with
  | l :: left_on', r :: right_on' =>
      join_keys_state alloc dt (S i) left_on' right_on'
        (if skips_surrogate dt l then st else surrogate_state alloc i l r st)
  | _, _ => st
  end.

Definition prepare_state (alloc : string → SciDBArray → string)
    (left right : SciDBArray) (left_on right_on : list string) : JoinState :=
  let '(left1, right1, new_left, new_right) :=
    join_keys_state alloc (type_dict (full_rep left)) 0 left_on right_on
      (left, right, left_on, right_on) in
  (to_dimensions_schema left1 new_left, to_dimensions_schema right1 new_right,
   new_left, new_right).

(** Whether both promotions at the end of [_prepare_join_schema] are
    accepted: every key the loop leaves can become a dimension of its
    array. *)
Definition promotes (alloc : string → SciDBArray → string)
    (left right : SciDBArray) (left_on right_on : list string) : bool :=
  let '(left1, right1, new_left, new_right) :=
    join_keys_state alloc (type_dict (full_rep left)) 0 left_on right_on
      (left, right, left_on, right_on) in
  forallb (promotable left1) new_left && forallb (promotable right1) new_right.

(** Whether the keys of [merge], once disambiguated, are promoted. *)
Definition joins (alloc : string → SciDBArray → string)
    (left right : SciDBArray) (left_on right_on : list string)
    (suffixes : string * string) : bool :=
  let '(left1, right1, left_on1, right_on1) :=
    apply_suffix_state left right left_on right_on suffixes in
  promotes alloc left1 right1 left_on1 right_on1.

(** [keep], lines 209 to 211, from the disambiguated arrays and keys. *)
Definition keep_set (st : JoinState) : gset string :=
  let '(left1, right1, _, right_on) := st in
  (list_to_set (att_names left1) ∪ list_to_set (dim_names left1)
   ∪ list_to_set (dim_names right1) ∪ list_to_set (att_names right1))
  ∖ list_to_set right_on.

(** The array that is unpacked and projected, lines 219 to 224. *)
Definition unpacked_schema (alloc : string → SciDBArray → string) (st : JoinState)
    : SciDBArray :=
  let '(left2, right2, left_on, right_on) := st in
  let result := cross_join_schema left2 right2 (interleave left_on right_on) in
  unpack_schema result (alloc "_row" result).

Definition projected_schema (alloc : string → SciDBArray → string)
    (left right : SciDBArray) (left_on right_on : list string)
    (suffixes : string * string) : SciDBArray :=
  let st := apply_suffix_state left right left_on right_on suffixes in
  let keep := keep_set st in
  let '(left1, right1, left_on1, right_on1) := st in
  let unpacked :=
    unpacked_schema alloc (prepare_state alloc left1 right1 left_on1 right_on1) in
  project_schema unpacked (filter (λ a, a ∈ keep) (att_names unpacked)).

(** The rename list of the final clean-up, lines 229 to 235. *)
Definition cleanup_renames (atts : list string) (suffixes : string * string)
    : list string :=
  flat_map (λ a,
    if PyStr.endswith a suffixes.1 &&
       bool_decide (PyStr.replace a suffixes.1 suffixes.2 ∉ atts)
    then [a; PyStr.replace a suffixes.1 ""] else []) atts.

Definition cleaned_schema (result : SciDBArray) (suffixes : string * string)
    : SciDBArray :=
  attribute_rename_schema result (cleanup_renames (att_names result) suffixes).

(** The key lists [merge] settles on when the arguments are consistent. *)
Definition resolved_keys (left right : SciDBArray) (on left_on right_on : option KeyArg)
    : list string * list string :=
  match left_on, right_on with
  | Some l, Some r => (as_list l, as_list r)
  | _, _ =>
      let on := match on with
                | Some k => if truthy on then as_list k
                            else elements (names left ∩ names right)
                | None => elements (names left ∩ names right)
                end in
      (on, on)
  end.

(** A conflicting or incomplete key specification: [on] together with
    [left_on] or [right_on]; only one of [left_on] and [right_on]; key lists
    of unequal length; a resolved key name missing from its side. *)
Definition key_spec_invalid (left right : SciDBArray)
    (on left_on right_on : option KeyArg) : Prop :=
  (on ≠ None ∧ (left_on ≠ None ∨ right_on ≠ None))
  ∨ (left_on ≠ None ∧ right_on = None)
  ∨ (left_on = None ∧ right_on ≠ None)
  ∨ (∃ l r, left_on = Some l ∧ right_on = Some r
            ∧ length (as_list l) ≠ length (as_list r))
  ∨ (∃ k, k ∈ (resolved_keys left right on left_on right_on).1 ∧ k ∉ names left)
  ∨ (∃ k, k ∈ (resolved_keys left right on left_on right_on).2 ∧ k ∉ names right).

(** The four schema reads at the head of [merge] and of [_apply_suffix]. *)
Definition schema_reads (left right : SciDBArray) : list Call :=
  [Read "att_names" left; Read "dim_names" left;
   Read "att_names" right; Read "dim_names" right].

(** The arrays only gain columns in the loop, and a right key is either a
    key that was given or a label that none of the given columns bears. *)
Definition columns_kept (left0 right0 : SciDBArray) (right_on : list string)
    (st : JoinState) : Prop :=
  let '(left1, right1, _, new_right) := st in
  names left0 ⊆ names left1 ∧ names right0 ⊆ names right1
  ∧ (∀ k, k ∈ new_right → k ∈ right_on ∨ k ∉ names right0).



(** ** Declared types *)

(** The attribute type names of the engine. *)
Definition scidb_types : list string :=
  ["bool"; "char"; "datetime"; "datetimetz"; "double"; "float";
   "int8"; "int16"; "int32"; "int64"; "string";
   "uint8"; "uint16"; "uint32"; "uint64"].


(** ** Sample arrays *)

Module Sample.

Definition suffixes : string * string := ("_x", "_y").

(** Two arrays sharing the key [id] and the dimension [i]. *)
Definition people : SciDBArray :=
  mkArray ["i"] [("id", "int64", false); ("v", "string", false)].
Definition scores : SciDBArray :=
  mkArray ["i"] [("id", "int64", false); ("w", "string", false)].


(** Two arrays joined on the string key [k]; both carry a column [d_x]. *)
Definition tracks : SciDBArray :=
  mkArray ["i"] [("k", "string", false); ("d_x", "double", false)].
Definition hits : SciDBArray :=
  mkArray ["j"] [("k", "string", false); ("d_x", "double", false)].

(** Keys [k] and [k_y] on the left, [k] and [z] on the right. *)
Definition wide : SciDBArray :=
  mkArray ["i"] [("k", "int64", false); ("k_y", "int64", false)].
Definition narrow : SciDBArray :=
  mkArray ["j"] [("k", "int64", false); ("z", "int64", false); ("k_y", "int64", false)].

(** [wide] and [narrow] as [_apply_suffix] returns them. *)
Definition wide_x : SciDBArray :=
  mkArray ["i"] [("k_x", "int64", false); ("k_y_x", "int64", false)].
Definition narrow_y : SciDBArray :=
  mkArray ["j"] [("k_y", "int64", false); ("z", "int64", false);
                 ("k_y_y", "int64", false)].

(** [people] and [scores] as [_apply_suffix] returns them. *)
Definition people_x : SciDBArray :=
  mkArray ["i_x"] [("id_x", "int64", false); ("v", "string", false)].
Definition scores_y : SciDBArray :=
  mkArray ["i_y"] [("id_y", "int64", false); ("w", "string", false)].

End Sample.

(** ** Column names after each stage *)

(** The name a column bears after disambiguation against the names
    [others] of the other array: lines 78 to 85 suffix the names that both
    arrays have. *)
Definition suffixed (others : gset string) (suffix name : string) : string :=
  if bool_decide (name ∈ others) then name +:+ suffix else name.

(** An array with every column renamed by [suffixed]; the order, the types
    and the nullability of the columns are kept. *)
Definition suffixed_schema (others : gset string) (suffix : string)
    (x : SciDBArray) : SciDBArray :=
  mkArray (suffixed others suffix <$> dim_names x)
          ((λ t, (suffixed others suffix (att_name t), t.1.2, t.2)) <$> full_rep x).

(** The name an attribute bears after the final clean-up of [merge], lines
    230 to 237, among the attribute names [atts] of the projected result. *)
Definition cleaned_name (atts : list string) (suffixes : string * string)
    (a : string) : string :=
  if PyStr.endswith a suffixes.1
     && bool_decide (PyStr.replace a suffixes.1 suffixes.2 ∉ atts)
  then PyStr.replace a suffixes.1 "" else a.

(** [s] occurs in [a] at its end only. *)
Definition only_at_end (s a : string) : Prop :=
  ∀ p q, a = p +:+ s +:+ q → q = "".

(** A test for [only_at_end]: wherever [s] starts in [a], what is left of
    [a] is [s] itself. *)
Fixpoint ends_only (s a : string) : bool :=
  match a with
  | EmptyString => true
  | String _ a' => (negb (String.prefix s a) || String.eqb a s) && ends_only s a'
  end.

(** ** More sample arrays *)

Module Cases.

(** Two arrays sharing the column [a]; the join keys are [a] on the left
    and [b] on the right. *)
Definition orders : SciDBArray :=
  mkArray ["i"] [("a", "int64", false); ("v", "string", false)].
Definition items : SciDBArray :=
  mkArray ["j"] [("a", "int64", false); ("b", "int64", false)].

(** Two arrays sharing the key [id] and the column [score]. *)
Definition spring : SciDBArray :=
  mkArray ["i"] [("id", "int64", false); ("score", "double", false)].
Definition autumn : SciDBArray :=
  mkArray ["j"] [("id", "int64", false); ("score", "double", false)].



(** The projection of the join of [Sample.people] and [Sample.scores] on
    [id], before the clean-up. *)
Definition joined : SciDBArray :=
  mkArray ["_row"]
    [("i_x", "int64", false); ("id_x", "int64", false);
     ("i_y", "int64", false); ("v", "string", false); ("w", "string", false)].

End Cases.

(** ** Running computations *)

Lemma outcome_bind {A B} (m : M A) (f : A → M B) :
  outcome (m ≫= f) =
  match outcome m with
  | Raise e => Raise e
  | Return a => outcome (f a)
  end.
Proof.
  destruct m as [calls [e|a]]; [reflexivity|].
  unfold mbind, M_mbind, M_bind, outcome. simpl. destruct (f a); reflexivity.
Qed.

Lemma trace_bind {A B} (m : M A) (f : A → M B) :
  trace (m ≫= f) =
  trace m ++ match outcome m with
             | Raise e => []
             | Return a => trace (f a)
             end.
Proof.
  destruct m as [calls [e|a]]; unfold mbind, M_mbind, M_bind, trace; simpl.
  - by rewrite app_nil_r.
  - destruct (f a); reflexivity.
Qed.

Lemma run_eq {A} (m : M A) : m = (trace m, outcome m).
Proof. by destruct m. Qed.

Lemma bind_run {A B} (m : M A) (f : A → M B) a :
  outcome m = Return a → m ≫= f = (trace m ++ trace (f a), outcome (f a)).
Proof.
  intros Hm. rewrite (run_eq (m ≫= f)). by rewrite trace_bind, outcome_bind, Hm.
Qed.

Lemma ret_bind {A B} (a : A) (f : A → M B) : ([], Return a) ≫= f = f a.
Proof. unfold mbind, M_mbind, M_bind. by destruct (f a). Qed.

Lemma outcome_ret {A} (a : A) : outcome (mret a : M A) = Return a.
Proof. reflexivity. Qed.

Lemma trace_ret {A} (a : A) : trace (mret a : M A) = [].
Proof. reflexivity. Qed.

Lemma returns_bind {A B} (m : M A) (f : A → M B) a b :
  returns m a → returns (f a) b → returns (m ≫= f) b.
Proof. unfold returns. intros Hm Hf. by rewrite outcome_bind, Hm. Qed.

Lemma returns_call {B} c (k : M B) b : returns k b → returns (call c;; k) b.
Proof. intros Hk. by apply (returns_bind (call c) (λ _, k) tt b). Qed.

Lemma returns_ret {A} (a : A) : returns (mret a : M A) a.
Proof. reflexivity. Qed.

Create HintDb run.
#[local] Hint Resolve returns_ret : run.

Ltac run_step :=
  first
    [ apply returns_ret
    | apply returns_call
    | eapply returns_bind; [solve [eauto with run] |] ].

Ltac run := repeat run_step.

Lemma get_att_names_returns x : returns (get_att_names x) (att_names x).
Proof. reflexivity. Qed.
Lemma get_dim_names_returns x : returns (get_dim_names x) (dim_names x).
Proof. reflexivity. Qed.
Lemma get_full_rep_returns x : returns (get_full_rep x) (full_rep x).
Proof. reflexivity. Qed.
Lemma read_names_returns x : returns (read_names x) (names x).
Proof. reflexivity. Qed.
Lemma attribute_rename_returns x args :
  returns (attribute_rename x args) (attribute_rename_schema x args).
Proof. reflexivity. Qed.
Lemma dimension_rename_returns x args :
  returns (dimension_rename x args) (dimension_rename_schema x args).
Proof. reflexivity. Qed.
Lemma project_returns x l : returns (project x l) (project_schema x l).
Proof. reflexivity. Qed.
Lemma unpack_returns x idx : returns (unpack x idx) (unpack_schema x idx).
Proof. reflexivity. Qed.
Lemma cross_join_returns l r args :
  returns (cross_join l r args) (cross_join_schema l r args).
Proof. reflexivity. Qed.
Lemma to_dimensions_run x l :
  to_dimensions x l =
  ([Invoke "to_dimensions" l],
   if forallb (promotable x) l then Return (to_dimensions_schema x l)
   else Raise (Propagated "to_dimensions")).
Proof. unfold to_dimensions. by destruct (forallb _ _). Qed.
Lemma new_attribute_label_returns alloc hint x :
  returns (_new_attribute_label alloc hint x) (alloc hint x).
Proof. reflexivity. Qed.

#[local] Hint Resolve get_att_names_returns get_dim_names_returns
  get_full_rep_returns read_names_returns attribute_rename_returns
  dimension_rename_returns project_returns unpack_returns cross_join_returns
  new_attribute_label_returns : run.

Lemma rename_args_returns read present dups suffix :
  returns read present →
  returns (rename_args read dups suffix) (relabel_args present dups suffix).
Proof.
  intros Hread. induction dups as [|d dups IH]; simpl; [reflexivity|].
  eapply returns_bind; [exact Hread|].
  eapply returns_bind; [exact IH|]. reflexivity.
Qed.

Lemma _relabel_returns x dups suffix :
  returns (_relabel x dups suffix) (relabel_schema x dups suffix).
Proof.
  unfold _relabel, relabel_schema.
  eapply returns_bind; [apply rename_args_returns, get_att_names_returns|].
  eapply returns_bind; [apply attribute_rename_returns|].
  eapply returns_bind; [apply rename_args_returns, get_dim_names_returns|].
  eapply returns_bind; [apply dimension_rename_returns|].
  reflexivity.
Qed.

#[local] Hint Resolve _relabel_returns : run.

Lemma _apply_suffix_returns left right left_on right_on suffixes :
  returns (_apply_suffix left right left_on right_on suffixes)
          (apply_suffix_state left right left_on right_on suffixes).
Proof. unfold _apply_suffix, apply_suffix_state. run. Qed.

Lemma build_surrogate_returns alloc i l r st :
  returns (build_surrogate alloc i l r st) (surrogate_state alloc i l r st).
Proof.
  destruct st as [[[left0 right0] new_left] new_right].
  unfold build_surrogate, surrogate_state.
  eapply returns_bind; [apply new_attribute_label_returns|].
  eapply returns_bind; [apply new_attribute_label_returns|].
  reflexivity.
Qed.

Lemma join_keys_loop_returns alloc dt i left_on right_on st :
  returns (join_keys_loop alloc dt i left_on right_on st)
          (join_keys_state alloc dt i left_on right_on st).
Proof.
  revert i right_on st.
  induction left_on as [|l left_on IH]; intros i [|r right_on] st; simpl;
    try reflexivity.
  eapply returns_bind; [|apply IH].
  destruct (skips_surrogate dt l); [reflexivity|apply build_surrogate_returns].
Qed.

(** [_prepare_join_schema] returns the promoted state when both promotions
    are accepted, and passes the failure of the promotion on otherwise. *)
Lemma _prepare_join_schema_outcome alloc left right left_on right_on :
  outcome (_prepare_join_schema alloc left right left_on right_on) =
  if promotes alloc left right left_on right_on
  then Return (prepare_state alloc left right left_on right_on)
  else Raise (Propagated "to_dimensions").
Proof.
  unfold _prepare_join_schema, prepare_state, promotes.
  rewrite outcome_bind, get_full_rep_returns.
  rewrite outcome_bind, join_keys_loop_returns.
  destruct (join_keys_state _ _ _ _ _ _) as [[[left1 right1] new_left] new_right].
  rewrite outcome_bind. cbn [debug call outcome snd].
  rewrite outcome_bind, to_dimensions_run. cbn [outcome snd].
  destruct (forallb (promotable left1) new_left); [|reflexivity].
  rewrite outcome_bind, to_dimensions_run. cbn [outcome snd].
  by destruct (forallb (promotable right1) new_right).
Qed.




Lemma read_keep_returns left right left_on right_on :
  returns (read_keep left right right_on) (keep_set (left, right, left_on, right_on)).
Proof. reflexivity. Qed.

(** The pipeline up to the projection returns the projected array when the
    disambiguated keys are promoted, and passes the failure on otherwise. *)
Lemma merge_projected_outcome alloc left right left_on right_on suffixes :
  outcome (merge_projected alloc left right left_on right_on suffixes) =
  if joins alloc left right left_on right_on suffixes
  then Return (projected_schema alloc left right left_on right_on suffixes)
  else Raise (Propagated "to_dimensions").
Proof.
  unfold merge_projected, projected_schema, joins.
  rewrite outcome_bind. cbn [debug call outcome snd].
  rewrite outcome_bind, _apply_suffix_returns.
  destruct (apply_suffix_state _ _ _ _ _) as [[[left1 right1] left_on1] right_on1].
  rewrite outcome_bind, (read_keep_returns _ _ left_on1).
  rewrite outcome_bind. cbn [debug call outcome snd].
  rewrite outcome_bind, _prepare_join_schema_outcome.
  destruct (promotes _ _ _ _ _); [|reflexivity].
  unfold unpacked_schema.
  destruct (prepare_state _ _ _ _ _) as [[[left2 right2] left_on2] right_on2].
  reflexivity.
Qed.


Lemma suffix_renames_returns result atts suffixes :
  returns (suffix_renames result atts suffixes)
          (flat_map (λ a,
             if PyStr.endswith a suffixes.1 &&
                bool_decide (PyStr.replace a suffixes.1 suffixes.2 ∉ att_names result)
             then [a; PyStr.replace a suffixes.1 ""] else []) atts).
Proof.
  induction atts as [|a atts IH]; [reflexivity|].
  cbn [suffix_renames flat_map].
  destruct (PyStr.endswith a suffixes.1); cbn [negb andb app]; [|exact IH].
  eapply returns_bind; [apply get_att_names_returns|].
  eapply returns_bind; [exact IH|]. reflexivity.
Qed.

Lemma drop_suffixes_returns result suffixes :
  returns (drop_suffixes result suffixes) (cleaned_schema result suffixes).
Proof.
  unfold drop_suffixes, cleaned_schema, cleanup_renames.
  apply returns_call.
  eapply returns_bind; [apply get_att_names_returns|].
  eapply returns_bind; [apply suffix_renames_returns|].
  apply attribute_rename_returns.
Qed.

(** ** Argument validation in [merge] *)

Lemma merge_run alloc left right on left_on right_on how suffixes :
  merge alloc left right on left_on right_on how suffixes =
  (schema_reads left right
     ++ trace (merge_checked alloc (names left) (names right) left right
                 on left_on right_on how suffixes),
   outcome (merge_checked alloc (names left) (names right) left right
              on left_on right_on how suffixes)).
Proof.
  unfold merge.
  rewrite (bind_run (read_names left) _ (names left)) by reflexivity.
  rewrite (bind_run (read_names right) _ (names right)) by reflexivity.
  reflexivity.
Qed.

Lemma check_names_pass msg keys (present : gset string) :
  (∀ k, k ∈ keys → k ∈ present) → check_names msg keys present = ([], Return tt).
Proof.
  induction keys as [|k keys IH]; intros Hall; [reflexivity|]. simpl.
  rewrite bool_decide_eq_false_2.
  - apply IH. intros k' Hk'. apply Hall. by right.
  - intros Hk. apply Hk, Hall. by left.
Qed.

Lemma check_names_fail msg keys (present : gset string) k :
  k ∈ keys → k ∉ present →
  ∃ k', check_names msg keys present = ([], Raise (ValueError (msg +:+ k'))).
Proof.
  induction keys as [|k0 keys IH]; intros Hin Hk; [by apply elem_of_nil in Hin|].
  simpl. destruct (decide (k0 ∈ present)) as [Hk0|Hk0].
  - rewrite bool_decide_eq_false_2 by (intros Hn; by apply Hn).
    apply IH; [|done]. apply elem_of_cons in Hin as [->|Hin]; done.
  - rewrite bool_decide_eq_true_2 by done. by exists k0.
Qed.

Lemma check_names_cases (keys : list string) (present : gset string) :
  { ∀ k, k ∈ keys → k ∈ present } + { ∃ k, k ∈ keys ∧ k ∉ present }.
Proof.
  destruct (decide (Forall (λ k, k ∈ present) keys)) as [Hall|Hex].
  - left. by apply Forall_forall.
  - right. apply not_Forall_Exists in Hex; [|apply _].
    apply Exists_exists in Hex as (k & Hk & Hn). by exists k.
Qed.

(** Once the keys are accepted the pipeline runs: to the end when the keys
    are promoted, and up to the failure of the promotion otherwise. *)
Lemma pipeline_outcome alloc left right left_on right_on suffixes :
  outcome
    (result ← merge_projected alloc left right left_on right_on suffixes;
     drop_suffixes result suffixes)
  = if joins alloc left right left_on right_on suffixes
    then Return (cleaned_schema
                   (projected_schema alloc left right left_on right_on suffixes)
                   suffixes)
    else Raise (Propagated "to_dimensions").
Proof.
  rewrite outcome_bind, merge_projected_outcome.
  destruct (joins _ _ _ _ _ _); [apply drop_suffixes_returns|reflexivity].
Qed.

(** What [merge_checked] does with consistent arguments, by the names of the
    resolved keys. *)
Lemma merge_checked_keys alloc left right left_on right_on suffixes
    (m : M (list string * list string)) :
  m = ([], Return (left_on, right_on)) →
  let body :=
    m ≫= (λ '(left_on, right_on),
      check_names "Left array join name is invalid: " left_on (names left);;
      check_names "Right array join name is invalid: " right_on (names right);;
      result ← merge_projected alloc left right left_on right_on suffixes;
      drop_suffixes result suffixes) in
  (((∃ k, k ∈ left_on ∧ k ∉ names left) ∨ (∃ k, k ∈ right_on ∧ k ∉ names right)) →
     ∃ msg, body = ([], Raise (ValueError msg)))
  ∧ ((∀ k, k ∈ left_on → k ∈ names left) → (∀ k, k ∈ right_on → k ∈ names right) →
     outcome body
     = if joins alloc left right left_on right_on suffixes
       then Return (cleaned_schema
                      (projected_schema alloc left right left_on right_on suffixes)
                      suffixes)
       else Raise (Propagated "to_dimensions")).
Proof.
  intros -> body. subst body. rewrite ret_bind. split.
  - intros Hbad.
    destruct (check_names_cases left_on (names left)) as [Hl|(k & Hk & Hn)].
    + destruct Hbad as [(k & Hk & Hn)|(k & Hk & Hn)]; [by specialize (Hl k Hk)|].
      destruct (check_names_fail "Right array join name is invalid: "
                  right_on (names right) k Hk Hn) as [k' Hfail].
      eexists. rewrite (check_names_pass _ _ _ Hl), ret_bind, Hfail.
      reflexivity.
    + destruct (check_names_fail "Left array join name is invalid: "
                  left_on (names left) k Hk Hn) as [k' Hfail].
      eexists. rewrite Hfail. reflexivity.
  - intros Hl Hr.
    rewrite (check_names_pass _ _ _ Hl), ret_bind.
    rewrite (check_names_pass _ _ _ Hr), ret_bind.
    apply pipeline_outcome.
Qed.

Lemma merge_inner_run alloc left right on left_on right_on suffixes :
  let body :=
    resolve_keys (names left) (names right) on left_on right_on
    ≫= (λ '(left_on, right_on),
      check_names "Left array join name is invalid: " left_on (names left);;
      check_names "Right array join name is invalid: " right_on (names right);;
      result ← merge_projected alloc left right left_on right_on suffixes;
      drop_suffixes result suffixes) in
  merge alloc left right on left_on right_on "inner" suffixes =
  (schema_reads left right ++ trace body, outcome body).
Proof. intros body. by rewrite merge_run. Qed.

Lemma resolve_keys_consistent lnames rnames left right on left_on right_on :
  lnames = names left → rnames = names right →
  ¬ (on ≠ None ∧ (left_on ≠ None ∨ right_on ≠ None)) →
  ¬ (left_on ≠ None ∧ right_on = None) →
  ¬ (left_on = None ∧ right_on ≠ None) →
  ¬ (∃ l r, left_on = Some l ∧ right_on = Some r
            ∧ length (as_list l) ≠ length (as_list r)) →
  resolve_keys lnames rnames on left_on right_on =
  ([], Return (resolved_keys left right on left_on right_on)).
Proof.
  intros -> -> Hboth Hl Hr Hlen. unfold resolve_keys, resolved_keys.
  destruct left_on as [l|], right_on as [r|]; simpl.
  - destruct on as [k|]; simpl; [exfalso; apply Hboth; split; [done|by left]|].
    rewrite bool_decide_eq_false_2; [done|].
    intros Hne. apply Hlen. by exists l, r.
  - exfalso. by apply Hl.
  - exfalso. by apply Hr.
  - destruct on as [k|]; simpl; [|done].
    by destruct k as [s|ks]; [destruct (negb (s =? ""))|destruct (negb _)].
Qed.

Lemma resolve_keys_rejects lnames rnames on left_on right_on :
  (on ≠ None ∧ (left_on ≠ None ∨ right_on ≠ None))
  ∨ (left_on ≠ None ∧ right_on = None)
  ∨ (left_on = None ∧ right_on ≠ None)
  ∨ (∃ l r, left_on = Some l ∧ right_on = Some r
            ∧ length (as_list l) ≠ length (as_list r)) →
  ∃ msg, resolve_keys lnames rnames on left_on right_on = ([], Raise (ValueError msg)).
Proof.
  unfold resolve_keys.
  destruct on as [k|], left_on as [l|], right_on as [r|]; simpl;
    intros [[H1 H2]|[[H1 H2]|[[H1 H2]|(l' & r' & H1 & H2 & H3)]]];
    try done; try (by eexists); try (by destruct H2).
  simplify_eq. rewrite bool_decide_eq_true_2 by done. by eexists.
Qed.

Lemma arguments_cases (on left_on right_on : option KeyArg) :
  { (on ≠ None ∧ (left_on ≠ None ∨ right_on ≠ None))
    ∨ (left_on ≠ None ∧ right_on = None)
    ∨ (left_on = None ∧ right_on ≠ None)
    ∨ (∃ l r, left_on = Some l ∧ right_on = Some r
              ∧ length (as_list l) ≠ length (as_list r)) }
  + { ¬ (on ≠ None ∧ (left_on ≠ None ∨ right_on ≠ None))
      ∧ ¬ (left_on ≠ None ∧ right_on = None)
      ∧ ¬ (left_on = None ∧ right_on ≠ None)
      ∧ ¬ (∃ l r, left_on = Some l ∧ right_on = Some r
                  ∧ length (as_list l) ≠ length (as_list r)) }.
Proof.
  destruct left_on as [l|], right_on as [r|].
  - destruct on as [k|]; [left; left; split; [done|by left]|].
    destruct (decide (length (as_list l) = length (as_list r))) as [Heq|Hne].
    + right. repeat split; try (by intros [? ?]).
      intros (l' & r' & ? & ? & ?). by simplify_eq.
    + left. do 3 right. by exists l, r.
  - left. right. by left.
  - left. do 2 right. by left.
  - right. repeat split; try (by intros [? ?]).
    + intros [_ [?|?]]; done.
    + intros (l' & r' & ? & ? & ?). done.
Qed.

Lemma raise_bind {A B} calls e (f : A → M B) : (calls, Raise e) ≫= f = (calls, Raise e).
Proof. reflexivity. Qed.

(** [merge] with [how = 'inner']: either the key specification is rejected
    right after the four schema reads, or the pipeline runs on the resolved
    keys. *)
Lemma merge_inner_cases alloc left right on left_on right_on suffixes :
  (key_spec_invalid left right on left_on right_on
   ∧ ∃ msg, merge alloc left right on left_on right_on "inner" suffixes
            = (schema_reads left right, Raise (ValueError msg)))
  ∨ (¬ key_spec_invalid left right on left_on right_on
     ∧ outcome (merge alloc left right on left_on right_on "inner" suffixes)
       = if joins alloc left right
              (resolved_keys left right on left_on right_on).1
              (resolved_keys left right on left_on right_on).2 suffixes
         then Return
                (cleaned_schema
                   (projected_schema alloc left right
                      (resolved_keys left right on left_on right_on).1
                      (resolved_keys left right on left_on right_on).2 suffixes)
                   suffixes)
         else Raise (Propagated "to_dimensions")).
Proof.
  rewrite merge_inner_run.
  destruct (arguments_cases on left_on right_on) as [Hbad|(H1 & H2 & H3 & H4)].
  { left. split; [unfold key_spec_invalid; tauto|].
    destruct (resolve_keys_rejects (names left) (names right) on left_on right_on Hbad)
      as [msg Hmsg].
    exists msg. rewrite Hmsg, raise_bind. reflexivity. }
  pose proof (resolve_keys_consistent _ _ left right on left_on right_on
                eq_refl eq_refl H1 H2 H3 H4) as Hres.
  destruct (resolved_keys left right on left_on right_on) as [ls rs] eqn:Hkeys.
  destruct (merge_checked_keys alloc left right ls rs suffixes _ Hres)
    as [Hbad Hgood]. simpl.
  destruct (check_names_cases ls (names left)) as [Hl|Hl];
    [destruct (check_names_cases rs (names right)) as [Hr|Hr]|].
  - right. split.
    + unfold key_spec_invalid. rewrite Hkeys. simpl.
      intros [?|[?|[?|[?|[(k & Hk & Hn)|(k & Hk & Hn)]]]]]; try done.
      * by apply Hn, Hl.
      * by apply Hn, Hr.
    + simpl. by apply Hgood.
  - left. split; [unfold key_spec_invalid; rewrite Hkeys; simpl; tauto|].
    destruct Hbad as [msg Hmsg]; [by right|]. exists msg. by rewrite Hmsg.
  - left. split; [unfold key_spec_invalid; rewrite Hkeys; simpl; tauto|].
    destruct Hbad as [msg Hmsg]; [by left|]. exists msg. by rewrite Hmsg.
Qed.

(** A successful [merge] is an inner join whose key specification is
    accepted and whose keys are promoted; the handle is the cleaned
    projection. *)
Lemma merge_returned alloc left right on left_on right_on how suffixes result :
  returns (merge alloc left right on left_on right_on how suffixes) result →
  how = "inner"
  ∧ ¬ key_spec_invalid left right on left_on right_on
  ∧ joins alloc left right
      (resolved_keys left right on left_on right_on).1
      (resolved_keys left right on left_on right_on).2 suffixes = true
  ∧ result = cleaned_schema
               (projected_schema alloc left right
                  (resolved_keys left right on left_on right_on).1
                  (resolved_keys left right on left_on right_on).2 suffixes)
               suffixes.
Proof.
  intros Hrun.
  destruct (decide (how = "inner")) as [->|Hhow].
  2: { unfold returns in Hrun. rewrite merge_run in Hrun.
       unfold merge_checked in Hrun.
       rewrite bool_decide_eq_true_2 in Hrun by done. discriminate. }
  split; [done|].
  destruct (merge_inner_cases alloc left right on left_on right_on suffixes)
    as [[_ [msg Hbad]]|[Hgood Hout]].
  { unfold returns in Hrun. rewrite Hbad in Hrun. discriminate. }
  split; [done|]. unfold returns in Hrun. rewrite Hout in Hrun.
  destruct (joins _ _ _ _ _ _); [|discriminate]. split; [done|].
  by injection Hrun.
Qed.





(** ** Claims on argument validation *)

(** C3 (amended): with [how] different from ['inner'], [merge] fails with
    the Unsupported-Operation error ([NotImplementedError]) after exactly four
    schema reads ([att_names] and [dim_names] of the left and of the right
    array) and before any other call. *)
Theorem merge_rejects_other_joins alloc left right on left_on right_on how suffixes :
  how ≠ "inner" →
  merge alloc left right on left_on right_on how suffixes =
  (schema_reads left right,
   Raise (NotImplementedError "Only inner joins are supported for now.")).
Proof.
  intros Hhow. rewrite merge_run. unfold merge_checked.
  rewrite bool_decide_eq_true_2 by done. reflexivity.
Qed.

Lemma merge_rejects_other_joins_witness :
  "left" ≠ "inner" ∧
  merge fresh_label Sample.people Sample.scores (Some (KName "id")) None None
        "left" Sample.suffixes =
  (schema_reads Sample.people Sample.scores,
   Raise (NotImplementedError "Only inner joins are supported for now.")).
Proof.
  split; [discriminate|].
  apply (merge_rejects_other_joins fresh_label Sample.people Sample.scores
           (Some (KName "id")) None None "left" Sample.suffixes).
  discriminate.
Defined.

(** C3 as stated fails: a left join of [people] and [scores] is rejected, but
    only after the schemas of both arrays were read, so the trace of calls is
    not empty. *)
Lemma merge_left_join_reads_schemas :
  ¬ (∃ msg, merge fresh_label Sample.people Sample.scores (Some (KName "id"))
                  None None "left" Sample.suffixes
            = ([], Raise (NotImplementedError msg))).
Proof. intros [msg Hrun]. vm_compute in Hrun. discriminate. Qed.

(** C10: a falsy [on] (an empty list or an empty string) with [left_on] and
    [right_on] unsupplied behaves exactly as [on] omitted, whatever [how]
    is; and for an inner join the keys are then the names that both arrays
    have, not an empty key list: after the four schema reads, these names
    pass both validation loops and the pipeline runs with them as the left
    and as the right keys. *)
Theorem merge_falsy_on_is_default alloc left right on how suffixes :
  truthy (Some on) = false →
  merge alloc left right (Some on) None None how suffixes
  = merge alloc left right None None None how suffixes
  ∧ (how = "inner" →
     let keys := elements (names left ∩ names right) in
     let joined :=
       result ← merge_projected alloc left right keys keys suffixes;
       drop_suffixes result suffixes in
     merge alloc left right (Some on) None None how suffixes
     = (schema_reads left right ++ trace joined, outcome joined)).
Proof.
  intros Hon. split.
  - rewrite !merge_run. unfold merge_checked, resolve_keys.
    simpl bool_decide. cbn [orb andb]. by rewrite Hon.
  - intros -> keys joined. rewrite merge_inner_run.
    assert (resolve_keys (names left) (names right) (Some on) None None
            = ([], Return (keys, keys))) as ->.
    { unfold resolve_keys. simpl bool_decide. cbn [orb andb]. by rewrite Hon. }
    rewrite ret_bind.
    rewrite (check_names_pass _ keys (names left)), ret_bind.
    2: { intros k Hk. apply elem_of_elements, elem_of_intersection in Hk. tauto. }
    rewrite (check_names_pass _ keys (names right)), ret_bind.
    2: { intros k Hk. apply elem_of_elements, elem_of_intersection in Hk. tauto. }
    reflexivity.
Qed.

Lemma merge_falsy_on_is_default_witness :
  truthy (Some (KNames [])) = false
  ∧ elements (names Sample.people ∩ names Sample.scores) = ["id"; "i"]
  ∧ Invoke "cross_join" ["id_x"; "id_y"; "i_x"; "i_y"]
      ∈ trace (merge fresh_label Sample.people Sample.scores (Some (KNames []))
                 None None "inner" Sample.suffixes)
  ∧ merge fresh_label Sample.people Sample.scores (Some (KNames [])) None None
          "inner" Sample.suffixes
    = merge fresh_label Sample.people Sample.scores None None None
            "inner" Sample.suffixes
  ∧ ("inner" = "inner" →
     let keys := elements (names Sample.people ∩ names Sample.scores) in
     let joined :=
       result ← merge_projected fresh_label Sample.people Sample.scores
                  keys keys Sample.suffixes;
       drop_suffixes result Sample.suffixes in
     merge fresh_label Sample.people Sample.scores (Some (KNames [])) None None
           "inner" Sample.suffixes
     = (schema_reads Sample.people Sample.scores ++ trace joined, outcome joined)).
Proof.
  split; [reflexivity|]. split; [vm_compute; reflexivity|]. split.
  { vm_compute. repeat first [apply list_elem_of_here | apply list_elem_of_further]. }
  apply (merge_falsy_on_is_default fresh_label Sample.people Sample.scores
           (KNames []) "inner" Sample.suffixes).
  reflexivity.
Defined.

(** C4: with [how = 'inner'], [merge] fails with the Invalid-Argument error
    ([ValueError]) exactly when the key specification is conflicting or
    incomplete, and it then fails right after the four schema reads, before
    any step of the pipeline. *)
Theorem merge_invalid_argument_iff alloc left right on left_on right_on suffixes :
  ((∃ msg, outcome (merge alloc left right on left_on right_on "inner" suffixes)
           = Raise (ValueError msg))
   ↔ key_spec_invalid left right on left_on right_on)
  ∧ (key_spec_invalid left right on left_on right_on →
     trace (merge alloc left right on left_on right_on "inner" suffixes)
     = schema_reads left right).
Proof.
  destruct (merge_inner_cases alloc left right on left_on right_on suffixes)
    as [[Hbad [msg Hrun]]|[Hgood Hrun]].
  - rewrite Hrun. simpl. split; [|done]. split; [done|]. intros _. by exists msg.
  - split; [|done]. split; [|done]. intros [msg Hmsg].
    rewrite Hrun in Hmsg. by destruct (joins _ _ _ _ _ _).
Qed.

Lemma merge_invalid_argument_iff_witness :
  key_spec_invalid Sample.people Sample.scores
    (Some (KName "id")) (Some (KName "id")) None
  ∧ trace (merge fresh_label Sample.people Sample.scores
             (Some (KName "id")) (Some (KName "id")) None "inner" Sample.suffixes)
    = schema_reads Sample.people Sample.scores.
Proof.
  assert (key_spec_invalid Sample.people Sample.scores
            (Some (KName "id")) (Some (KName "id")) None) as Hbad.
  { left. split; [discriminate|left; discriminate]. }
  split; [exact Hbad|].
  exact (proj2 (merge_invalid_argument_iff fresh_label Sample.people Sample.scores
                  (Some (KName "id")) (Some (KName "id")) None Sample.suffixes)
               Hbad).
Defined.




(** ** The Schema Disambiguator *)

Lemma attribute_rename_schema_nil x : attribute_rename_schema x [] = x.
Proof.
  destruct x as [dims rep]. unfold attribute_rename_schema.
  cbn [dim_names full_rep rename_pairs]. f_equal.
  induction rep as [|[[nm typ] nullable] rep IH]; [done|]. by rewrite fmap_cons, IH.
Qed.

Lemma dimension_rename_schema_nil x : dimension_rename_schema x [] = x.
Proof.
  destruct x as [dims rep]. unfold dimension_rename_schema.
  cbn [dim_names full_rep rename_pairs]. f_equal.
  induction dims as [|d dims IH]; [done|]. by rewrite fmap_cons, IH.
Qed.

Lemma relabel_schema_nil x suffix : relabel_schema x [] suffix = x.
Proof.
  unfold relabel_schema. simpl.
  by rewrite attribute_rename_schema_nil, dimension_rename_schema_nil.
Qed.

Lemma suffix_left_on_lookup left_on right_on suffix i k :
  left_on !! i = Some k →
  suffix_left_on left_on right_on suffix !! i =
  Some (if bool_decide (k ∉ right_on) then k else k +:+ suffix).
Proof. intros Hk. unfold suffix_left_on. by rewrite list_lookup_fmap, Hk. Qed.

Lemma suffix_right_on_lookup left_on_old right_on suffix j k :
  right_on !! j = Some k →
  suffix_right_on left_on_old right_on suffix !! j =
  Some (if bool_decide (k ∉ left_on_old) then k else k +:+ suffix).
Proof. intros Hk. unfold suffix_right_on. by rewrite list_lookup_fmap, Hk. Qed.

Lemma suffix_left_on_id left_on right_on suffix :
  (∀ k, k ∈ left_on → k ∉ right_on) →
  suffix_left_on left_on right_on suffix = left_on.
Proof.
  intros Hfree. unfold suffix_left_on.
  induction left_on as [|l left_on IH]; [done|]. simpl.
  rewrite bool_decide_eq_true_2 by (apply Hfree; by left).
  f_equal. apply IH. intros k Hk. apply Hfree. by right.
Qed.

Lemma suffix_right_on_id left_on_old right_on suffix :
  (∀ k, k ∈ right_on → k ∉ left_on_old) →
  suffix_right_on left_on_old right_on suffix = right_on.
Proof. apply suffix_left_on_id. Qed.

(** C5: every key name that is a join key on both sides gets [suffix_left]
    in the left key list and [suffix_right] in the right key list, at every
    position where it stands; a key name that is a join key on one side only
    is kept.  The right-hand test looks at the left key names as they were
    before this step, so a right key is never suffixed because of a left key
    that this step has just renamed. *)
Theorem apply_suffix_renames_shared_keys left right left_on right_on suffixes :
  ∃ new_left new_right new_left_on new_right_on,
    returns (_apply_suffix left right left_on right_on suffixes)
            (new_left, new_right, new_left_on, new_right_on)
    ∧ (∀ i k, left_on !! i = Some k → k ∈ right_on →
              new_left_on !! i = Some (k +:+ suffixes.1))
    ∧ (∀ j k, right_on !! j = Some k → k ∈ left_on →
              new_right_on !! j = Some (k +:+ suffixes.2))
    ∧ (∀ i k, left_on !! i = Some k → k ∉ right_on → new_left_on !! i = Some k)
    ∧ (∀ j k, right_on !! j = Some k → k ∉ left_on → new_right_on !! j = Some k).
Proof.
  eexists _, _, _, _. split; [apply _apply_suffix_returns|].
  repeat split; intros i k Hk Hin.
  - rewrite (suffix_left_on_lookup _ _ _ _ _ Hk).
    by rewrite bool_decide_eq_false_2 by (intros Hn; by apply Hn).
  - rewrite (suffix_right_on_lookup _ _ _ _ _ Hk).
    by rewrite bool_decide_eq_false_2 by (intros Hn; by apply Hn).
  - rewrite (suffix_left_on_lookup _ _ _ _ _ Hk).
    by rewrite bool_decide_eq_true_2.
  - rewrite (suffix_right_on_lookup _ _ _ _ _ Hk).
    by rewrite bool_decide_eq_true_2.
Qed.

(** C9 (amended): applied to a pair of arrays and key lists that it has
    produced, when the two arrays share no name and no name stands in both
    key lists, [_apply_suffix] performs no rename (its four rename calls
    carry no argument) and returns the arrays and key lists unchanged. *)
Theorem apply_suffix_idempotent left right left_on right_on suffixes
    new_left new_right new_left_on new_right_on :
  returns (_apply_suffix left right left_on right_on suffixes)
          (new_left, new_right, new_left_on, new_right_on) →
  names new_left ∩ names new_right = ∅ →
  (∀ k, k ∈ new_left_on → k ∉ new_right_on) →
  _apply_suffix new_left new_right new_left_on new_right_on suffixes =
  (schema_reads new_left new_right
     ++ [Invoke "attribute_rename" []; Invoke "dimension_rename" [];
         Invoke "attribute_rename" []; Invoke "dimension_rename" []],
   Return (new_left, new_right, new_left_on, new_right_on)).
Proof.
  intros _ Hnames Hkeys. unfold _apply_suffix.
  rewrite (bind_run (read_names new_left) _ (names new_left)) by reflexivity.
  rewrite (bind_run (read_names new_right) _ (names new_right)) by reflexivity.
  rewrite Hnames, elements_empty.
  rewrite suffix_left_on_id by done.
  rewrite suffix_right_on_id by (intros k Hr Hl; by apply (Hkeys k)).
  pose proof (relabel_schema_nil new_left suffixes.1) as Hl.
  pose proof (relabel_schema_nil new_right suffixes.2) as Hr.
  unfold relabel_schema in Hl, Hr. simpl in Hl, Hr.
  simpl. by rewrite Hl, Hr.
Qed.

Lemma apply_suffix_idempotent_witness :
  returns (_apply_suffix Sample.people Sample.scores ["id"] ["id"] Sample.suffixes)
          (Sample.people_x, Sample.scores_y, ["id_x"], ["id_y"])
  ∧ _apply_suffix Sample.people_x Sample.scores_y ["id_x"] ["id_y"] Sample.suffixes =
    (schema_reads Sample.people_x Sample.scores_y
       ++ [Invoke "attribute_rename" []; Invoke "dimension_rename" [];
           Invoke "attribute_rename" []; Invoke "dimension_rename" []],
     Return (Sample.people_x, Sample.scores_y, ["id_x"], ["id_y"])).
Proof.
  assert (returns (_apply_suffix Sample.people Sample.scores ["id"] ["id"]
                     Sample.suffixes)
                  (Sample.people_x, Sample.scores_y, ["id_x"], ["id_y"])) as Hfirst
    by (vm_compute; reflexivity).
  split; [exact Hfirst|].
  apply (apply_suffix_idempotent Sample.people Sample.scores ["id"] ["id"]
           Sample.suffixes Sample.people_x Sample.scores_y ["id_x"] ["id_y"] Hfirst).
  - apply (bool_decide_unpack _). vm_compute. exact I.
  - intros k Hl Hr. apply list_elem_of_singleton in Hl, Hr. by subst.
Defined.

(** C9 as stated fails.  Joining [wide] on [k], [k_y] with [narrow] on [k],
    [z] yields arrays that share no name and the key lists [k_x], [k_y] and
    [k_y], [z]; a second pass renames no column but changes both key lists,
    to [k_x], [k_y_x] and [k_y_y], [z]. *)
Lemma apply_suffix_second_pass_changes_keys :
  returns (_apply_suffix Sample.wide Sample.narrow ["k"; "k_y"] ["k"; "z"]
             Sample.suffixes)
          (Sample.wide_x, Sample.narrow_y, ["k_x"; "k_y"], ["k_y"; "z"])
  ∧ names Sample.wide_x ∩ names Sample.narrow_y = ∅
  ∧ returns (_apply_suffix Sample.wide_x Sample.narrow_y ["k_x"; "k_y"]
               ["k_y"; "z"] Sample.suffixes)
            (Sample.wide_x, Sample.narrow_y, ["k_x"; "k_y_x"], ["k_y_y"; "z"])
  ∧ ¬ returns (_apply_suffix Sample.wide_x Sample.narrow_y ["k_x"; "k_y"]
                 ["k_y"; "z"] Sample.suffixes)
              (Sample.wide_x, Sample.narrow_y, ["k_x"; "k_y"], ["k_y"; "z"]).
Proof.
  unfold returns. split; [|split; [|split]].
  - vm_compute. reflexivity.
  - apply (bool_decide_unpack _). vm_compute. exact I.
  - vm_compute. reflexivity.
  - vm_compute. discriminate.
Qed.

(** ** The Key Materializer *)

Lemma elem_of_list_insert_inv {A} (l : list A) i (x y : A) :
  x ∈ <[i:=y]> l → x = y ∨ x ∈ l.
Proof.
  revert i. induction l as [|z l IH]; intros [|i] Hin; simpl in Hin;
    try (by right).
  - apply elem_of_cons in Hin as [->|Hin]; [by left|right; by right].
  - apply elem_of_cons in Hin as [->|Hin]; [right; by left|].
    destruct (IH i Hin) as [->|Hl]; [by left|right; by right].
Qed.

Lemma att_names_index_lookup x out :
  att_names (index_lookup_schema x out) = att_names x ++ [out].
Proof. unfold att_names, index_lookup_schema. simpl. by rewrite fmap_app. Qed.

Lemma names_index_lookup x out : names (index_lookup_schema x out) = names x ∪ {[out]}.
Proof.
  apply set_eq. intros k. unfold names.
  rewrite att_names_index_lookup, !elem_of_union, !elem_of_list_to_set.
  rewrite elem_of_app, list_elem_of_singleton, elem_of_singleton. simpl. tauto.
Qed.

Lemma elem_of_att_names_without (keys : list string)
    (rep : list (string * string * bool)) k :
  k ∈ att_name <$> filter (λ t, att_name t ∉ keys) rep
  ↔ (k ∉ keys) ∧ k ∈ att_name <$> rep.
Proof.
  rewrite !list_elem_of_fmap. split.
  - intros (t & -> & Hf). apply list_elem_of_filter in Hf as [Hn Ht]. eauto.
  - intros (Hn & t & -> & Ht). exists t. split; [done|].
    by apply list_elem_of_filter.
Qed.

Lemma elem_of_att_names_within (keys : list string)
    (rep : list (string * string * bool)) k :
  k ∈ att_name <$> filter (λ t, att_name t ∈ keys) rep
  ↔ k ∈ keys ∧ k ∈ att_name <$> rep.
Proof.
  rewrite !list_elem_of_fmap. split.
  - intros (t & -> & Hf). apply list_elem_of_filter in Hf as [Hn Ht]. eauto.
  - intros (Hn & t & -> & Ht). exists t. split; [done|].
    by apply list_elem_of_filter.
Qed.

Lemma elem_of_names x k : k ∈ names x ↔ k ∈ att_names x ∨ k ∈ dim_names x.
Proof. unfold names. set_solver. Qed.

(** Promotion keeps the names of an array. *)
Lemma names_to_dimensions x keys : names (to_dimensions_schema x keys) = names x.
Proof.
  apply set_eq. intros k. rewrite !elem_of_names.
  unfold to_dimensions_schema, att_names. simpl.
  rewrite elem_of_att_names_without, elem_of_app, list_elem_of_filter.
  destruct (decide (k ∈ keys)); tauto.
Qed.

(** A property of the loop state that every surrogate step keeps holds when
    the loop ends. *)
Lemma join_keys_state_invariant (P : JoinState → Prop) alloc dt :
  (∀ i l r st, P st → P (surrogate_state alloc i l r st)) →
  ∀ left_on right_on i st, P st → P (join_keys_state alloc dt i left_on right_on st).
Proof.
  intros Hstep left_on.
  induction left_on as [|l left_on IH]; intros [|r right_on] i st Hst; simpl;
    try done.
  apply IH. destruct (skips_surrogate dt l); [done|by apply Hstep].
Qed.

(** ** The concrete allocator *)

(** [fresh_label] keeps the guarantee of the allocator. *)
Lemma string_length_app s1 s2 :
  String.length (s1 +:+ s2) = String.length s1 + String.length s2.
Proof. induction s1 as [|c s1 IH]; simpl; [done|by rewrite IH]. Qed.

Lemma length_zeros n : String.length (zeros n) = n.
Proof.
  induction n as [|n IH]; [done|].
  change (zeros (S n)) with ("0" +:+ zeros n). by rewrite string_length_app, IH.
Qed.

Lemma longest_bound (l : list string) s :
  s ∈ l → (String.length s ≤ longest l)%nat.
Proof.
  induction l as [|s' l IH]; intros Hin; [by apply elem_of_nil in Hin|].
  apply elem_of_cons in Hin as [->|Hin]; simpl; [lia|].
  specialize (IH Hin). lia.
Qed.

Lemma fresh_label_fresh hint x : fresh_label hint x ∉ names x.
Proof.
  unfold fresh_label. case_bool_decide as Hin; [|done].
  intros Hnew. apply elem_of_names in Hnew.
  assert (hint +:+ "_" +:+ zeros (longest (att_names x ++ dim_names x))
          ∈ att_names x ++ dim_names x) as Hlong
    by (apply elem_of_app; tauto).
  apply longest_bound in Hlong.
  rewrite !string_length_app, length_zeros in Hlong.
  change (String.length "_") with 1 in Hlong. lia.
Qed.

(** ** Surrogate indexes *)

Lemma type_dict_lookup_from (rep : list (string * string * bool))
    (acc : gmap string string) name :
  NoDup (att_name <$> rep) →
  foldl (λ d t, <[att_name t := t.1.2]> d) acc rep !! name =
  match list_find (λ t, att_name t = name) rep with
  | Some (_, t) => Some t.1.2
  | None => acc !! name
  end.
Proof.
  revert acc. induction rep as [|t rep IH]; intros acc Hnodup; [done|].
  rewrite fmap_cons in Hnodup. apply NoDup_cons in Hnodup as [Hnew Hnodup].
  cbn [foldl list_find]. rewrite IH by done.
  destruct (decide (att_name t = name)) as [Heq|Hne].
  - assert (list_find (λ t0, att_name t0 = name) rep = None) as ->.
    { apply list_find_None, Forall_forall. intros t' Hin Ht'.
      apply Hnew. rewrite Heq, <- Ht'. by apply list_elem_of_fmap_2. }
    rewrite Heq. by rewrite lookup_insert_eq.
  - destruct (list_find _ rep) as [[i t']|]; [done|].
    cbn. by rewrite lookup_insert_ne.
Qed.

Lemma skips_surrogate_declared x l typ :
  NoDup (att_names x) →
  declared_type x l = Some typ →
  skips_surrogate (type_dict (full_rep x)) l = integer_type typ.
Proof.
  intros Hnodup. unfold declared_type, skips_surrogate, type_dict.
  rewrite type_dict_lookup_from by done. rewrite lookup_empty.
  destruct (list_find _ _) as [[i t]|].
  - by intros [= <-].
  - case_bool_decide; [|done]. by intros [= <-].
Qed.








(** ** Promotion to dimensions *)

Lemma forallb_elem_of {A} (f : A → bool) (l : list A) :
  forallb f l = true ↔ ∀ k, k ∈ l → f k = true.
Proof.
  induction l as [|x l IH]; cbn [forallb].
  - split; [|done]. intros _ k Hk. by apply elem_of_nil in Hk.
  - rewrite andb_true_iff, IH. split.
    + intros [Hx Hl] k [-> | Hk]%elem_of_cons; [done|by apply Hl].
    + intros Hall. split; [apply Hall; by left|]. intros k Hk. apply Hall. by right.
Qed.















(** On the attribute types of the engine the test singles out the eight
    integer types. *)
Lemma integer_type_scidb_types :
  filter (λ typ, integer_type typ = true) scidb_types =
  ["int8"; "int16"; "int32"; "int64"; "uint8"; "uint16"; "uint32"; "uint64"].
Proof. vm_compute. reflexivity. Qed.

(** ** The columns of the joined array *)

Lemma att_names_unpack x idx :
  att_names (unpack_schema x idx) = dim_names x ++ att_names x.
Proof.
  unfold att_names, unpack_schema. simpl. rewrite fmap_app. f_equal.
  induction (dim_names x) as [|d dims IH]; [done|]. by rewrite !fmap_cons, IH.
Qed.

Lemma right_keys_interleave ls rs k : k ∈ right_keys (interleave ls rs) → k ∈ rs.
Proof.
  revert rs. induction ls as [|l ls IH]; intros [|r rs] Hk; simpl in Hk;
    try (by apply elem_of_nil in Hk).
  apply elem_of_cons in Hk as [->|Hk]; [by left|right; by apply IH].
Qed.

Lemma surrogate_state_columns_kept alloc left0 right0 right_on i l r st :
  (∀ hint x, alloc hint x ∉ names x) →
  columns_kept left0 right0 right_on st →
  columns_kept left0 right0 right_on (surrogate_state alloc i l r st).
Proof.
  intros Hfresh. destruct st as [[[left1 right1] new_left] new_right].
  intros (Hl & Hr & Hkeys). unfold surrogate_state, columns_kept.
  rewrite !names_index_lookup. repeat split.
  - intros k Hk. apply elem_of_union_l. by apply Hl.
  - intros k Hk. apply elem_of_union_l. by apply Hr.
  - intros k [->|Hk]%elem_of_list_insert_inv; [|by apply Hkeys].
    right. intros Hin. by apply (Hfresh (r +:+ "_idx") right1), Hr.
Qed.

Lemma prepare_state_columns_kept alloc left right left_on right_on :
  (∀ hint x, alloc hint x ∉ names x) →
  columns_kept left right right_on (prepare_state alloc left right left_on right_on).
Proof.
  intros Hfresh. unfold prepare_state.
  pose proof (join_keys_state_invariant (columns_kept left right right_on) alloc
                (type_dict (full_rep left))
                (λ i l r st, surrogate_state_columns_kept alloc _ _ _ i l r st Hfresh)
                left_on right_on 0 (left, right, left_on, right_on)) as Hinv.
  destruct (join_keys_state _ _ _ _ _ _) as [[[left1 right1] new_left] new_right].
  destruct Hinv as (Hl & Hr & Hkeys).
  { split; [reflexivity|]. split; [reflexivity|]. intros k Hk. by left. }
  unfold columns_kept. by rewrite !names_to_dimensions.
Qed.

(** With an allocator that keeps its guarantee, the attributes left by the
    projection are exactly the names of [keep]. *)
Lemma projected_schema_columns alloc left right left_on right_on suffixes :
  (∀ hint x, alloc hint x ∉ names x) →
  list_to_set (att_names (projected_schema alloc left right left_on right_on suffixes))
  = keep_set (apply_suffix_state left right left_on right_on suffixes).
Proof.
  intros Hfresh. unfold projected_schema.
  destruct (apply_suffix_state _ _ _ _ _) as [[[left1 right1] left_on1] right_on1].
  pose proof (prepare_state_columns_kept alloc left1 right1 left_on1 right_on1 Hfresh)
    as Hkept.
  unfold unpacked_schema.
  destruct (prepare_state _ _ _ _ _) as [[[left2 right2] left_on2] right_on2].
  destruct Hkept as (Hl & Hr & Hkeys).
  apply set_eq. intros a. rewrite elem_of_list_to_set.
  unfold project_schema, att_names at 1. cbn [full_rep].
  rewrite elem_of_att_names_within, list_elem_of_filter.
  fold (att_names (unpack_schema
                     (cross_join_schema left2 right2 (interleave left_on2 right_on2))
                     (alloc "_row"
                        (cross_join_schema left2 right2
                           (interleave left_on2 right_on2))))).
  rewrite att_names_unpack. split; [by intros [[Hkeep _] _]|]. intros Hkeep.
  cut (a ∈ dim_names (cross_join_schema left2 right2 (interleave left_on2 right_on2))
           ++ att_names (cross_join_schema left2 right2
                           (interleave left_on2 right_on2))); [by intros ?|].
  unfold keep_set in Hkeep.
  apply elem_of_difference in Hkeep as [Hin Hnot].
  rewrite elem_of_list_to_set in Hnot.
  unfold cross_join_schema, att_names. cbn [dim_names full_rep].
  rewrite fmap_app, !elem_of_app, list_elem_of_filter.
  fold (att_names left2) (att_names right2).
  assert (a ∈ names left1 ∨ a ∈ names right1) as [Hleft|Hright].
  { rewrite !elem_of_names. rewrite !elem_of_union, !elem_of_list_to_set in Hin.
    tauto. }
  - apply Hl, elem_of_names in Hleft. tauto.
  - pose proof Hright as Hright2. apply Hr, elem_of_names in Hright2.
    destruct Hright2 as [Hatt|Hdim]; [tauto|].
    left. right. split; [|done].
    intros Hkey%right_keys_interleave.
    destruct (Hkeys a Hkey); done.
Qed.

(** ** The final suffix clean-up *)

(** C1 fails on the code at this input: [tracks] and [hits] both carry a
    column [d_x]; joined on [k] with the suffixes [_x] and [_y] the projection
    leaves [d_x_x] and its counterpart [d_x_y], yet the clean-up renames
    [d_x_x] to [d], because [replace] rewrites every occurrence of the left
    suffix, both in the counterpart test ([d_y_y]) and in the new name. *)
Theorem merge_cleanup_rewrites_inner_suffix :
  returns (merge_projected fresh_label Sample.tracks Sample.hits ["k"] ["k"]
             Sample.suffixes)
          (mkArray ["_row"]
             [("i", "int64", false); ("j", "int64", false);
              ("k_x", "string", false); ("d_x_x", "double", false);
              ("d_x_y", "double", false)])
  ∧ returns (merge fresh_label Sample.tracks Sample.hits (Some (KName "k"))
               None None "inner" Sample.suffixes)
            (mkArray ["_row"]
               [("i", "int64", false); ("j", "int64", false);
                ("k", "string", false); ("d", "double", false);
                ("d_x_y", "double", false)]).
Proof. split; vm_compute; reflexivity. Qed.

(** ** String facts *)

Lemma string_app_cons c s t : String c s +:+ t = String c (s +:+ t).
Proof. reflexivity. Qed.

Lemma string_app_nil_r s : s +:+ "" = s.
Proof. induction s as [|c s IH]; [done|]. by rewrite string_app_cons, IH. Qed.

Lemma prefix_app s q : String.prefix s (s +:+ q) = true.
Proof.
  induction s as [|c s IH]; [by destruct q|].
  rewrite string_app_cons. cbn [String.prefix].
  destruct (Ascii.ascii_dec c c); [exact IH|done].
Qed.

Lemma prefix_inv s a : String.prefix s a = true → ∃ q, a = s +:+ q.
Proof.
  revert a. induction s as [|c s IH]; intros a Hp; [by exists a|].
  destruct a as [|c' a]; [done|]. cbn [String.prefix] in Hp.
  destruct (Ascii.ascii_dec c c') as [->|]; [|done].
  destruct (IH a Hp) as [q ->]. by exists q.
Qed.

Lemma substring_all s : String.substring 0 (String.length s) s = s.
Proof.
  induction s as [|c s IH]; [done|].
  cbn [String.length String.substring]. by rewrite IH.
Qed.

Lemma substring_app b s m :
  String.substring (String.length b) m (b +:+ s) = String.substring 0 m s.
Proof. induction b as [|c b IH]; [done|]. exact IH. Qed.

Lemma string_split (a : string) k :
  (k ≤ String.length a)%nat →
  ∃ b r, a = b +:+ r ∧ String.length b = k.
Proof.
  revert a. induction k as [|k IH]; intros a Hk; [by exists "", a|].
  destruct a as [|c a]; [simpl in Hk; lia|].
  destruct (IH a) as (b & r & -> & Hb); [simpl in Hk; lia|].
  exists (String c b), r. split; [done|]. simpl. by rewrite Hb.
Qed.

(** Two names that agree once suffixed: one suffix ends with the other. *)
Lemma suffixed_names_agree a b s t :
  a +:+ s = b +:+ t → (∃ u, s = u +:+ t) ∨ (∃ u, t = u +:+ s).
Proof.
  revert b. induction a as [|c a IH]; intros b Heq.
  - left. by exists b.
  - destruct b as [|c' b]; [right; by exists (String c a)|].
    injection Heq as _ Heq. by apply IH in Heq.
Qed.

Lemma string_app_inj_r a b s : a +:+ s = b +:+ s → a = b.
Proof.
  revert b. induction a as [|c a IH]; intros b Heq.
  - destruct b as [|c' b]; [done|].
    apply (f_equal String.length) in Heq.
    rewrite !string_length_app in Heq. cbn [String.length] in Heq. lia.
  - destruct b as [|c' b].
    + apply (f_equal String.length) in Heq.
      rewrite !string_length_app in Heq. cbn [String.length] in Heq. lia.
    + rewrite !string_app_cons in Heq. injection Heq as -> Heq.
      by rewrite (IH b Heq).
Qed.

(** Suffixes of the same length that differ: neither ends with the other. *)
Lemma suffix_differs (s t : string) :
  String.length s = String.length t → s ≠ t → ∀ u, s ≠ u +:+ t.
Proof.
  intros Hlen Hne u Heq. apply Hne. rewrite Heq.
  apply (f_equal String.length) in Heq. rewrite string_length_app in Heq.
  destruct u as [|c u]; [done|]. cbn [String.length] in Heq. lia.
Qed.

Lemma suffix_nonempty (s t : string) : (∀ u, t ≠ u +:+ s) → s ≠ "".
Proof. intros Hs ->. apply (Hs t). by rewrite string_app_nil_r. Qed.

(** A name shorter than the suffix does not end with it. *)
Lemma shorter_than_suffix (a s : string) :
  (String.length a < String.length s)%nat → ∀ b, a ≠ b +:+ s.
Proof.
  intros Hlen b Heq. apply (f_equal String.length) in Heq.
  rewrite string_length_app in Heq. lia.
Qed.

Lemma endswith_app b s : PyStr.endswith (b +:+ s) s = true.
Proof.
  unfold PyStr.endswith. rewrite string_length_app.
  apply andb_true_iff. split; [apply Nat.leb_le; lia|].
  replace (String.length b + String.length s - String.length s)%nat
    with (String.length b) by lia.
  rewrite substring_app, substring_all. apply String.eqb_refl.
Qed.

Lemma endswith_inv a s : PyStr.endswith a s = true → ∃ b, a = b +:+ s.
Proof.
  unfold PyStr.endswith. intros [Hle Heq]%andb_true_iff.
  apply Nat.leb_le in Hle. apply String.eqb_eq in Heq.
  destruct (string_split a (String.length a - String.length s)) as (b & r & -> & Hb);
    [lia|].
  exists b. f_equal. rewrite <- Hb, substring_app in Heq.
  rewrite string_length_app in Hb, Hle.
  replace (String.length s) with (String.length r) in Heq by lia.
  by rewrite substring_all in Heq.
Qed.

Lemma intersperse_nil a : PyStr.intersperse "" a = a.
Proof.
  induction a as [|c a IH]; [done|]. cbn [PyStr.intersperse]. by rewrite IH.
Qed.

Lemma replace_scan_skip old new s :
  PyStr.replace_scan old new (String.length s) s = "".
Proof. induction s as [|c s IH]; [done|]. exact IH. Qed.

Lemma only_at_end_tail s c b :
  only_at_end s (String c b +:+ s) → only_at_end s (b +:+ s).
Proof.
  intros Honly p q Heq. apply (Honly (String c p) q).
  by rewrite !string_app_cons, Heq.
Qed.

Lemma replace_scan_at_end c0 s0 b t :
  only_at_end (String c0 s0) (b +:+ String c0 s0) →
  PyStr.replace_scan (String c0 s0) t 0 (b +:+ String c0 s0) = b +:+ t.
Proof.
  induction b as [|c b IH]; intros Honly.
  - change ("" +:+ String c0 s0) with (String c0 s0).
    cbn [PyStr.replace_scan].
    rewrite <- (string_app_nil_r (String c0 s0)) at 2. rewrite prefix_app.
    cbn [String.length].
    replace (S (String.length s0) - 1)%nat with (String.length s0) by lia.
    by rewrite replace_scan_skip, string_app_nil_r.
  - rewrite !string_app_cons. cbn [PyStr.replace_scan].
    destruct (String.prefix (String c0 s0) (String c (b +:+ String c0 s0))) eqn:Hp.
    + apply prefix_inv in Hp as [q Hq].
      assert (q = "") as ->.
      { apply (Honly "" q). by rewrite string_app_cons. }
      rewrite string_app_nil_r in Hq.
      apply (f_equal String.length) in Hq. cbn [String.length] in Hq.
      rewrite string_length_app in Hq. cbn [String.length] in Hq. lia.
    + f_equal. apply IH. by apply only_at_end_tail in Honly.
Qed.

(** Where the old string occurs at the end only, [replace] rewrites that
    occurrence and nothing else. *)
Lemma replace_at_end b s t :
  s ≠ "" → only_at_end s (b +:+ s) →
  PyStr.replace (b +:+ s) s t = b +:+ t.
Proof.
  intros Hs Honly. destruct s as [|c0 s0]; [done|].
  unfold PyStr.replace. by apply replace_scan_at_end.
Qed.

Lemma ends_only_correct s a : ends_only s a = true → only_at_end s a.
Proof.
  induction a as [|c a IH]; intros Hends p q Heq.
  - apply (f_equal String.length) in Heq.
    rewrite !string_length_app in Heq. cbn [String.length] in Heq.
    destruct q; [done|]. cbn [String.length] in Heq. lia.
  - cbn [ends_only] in Hends. apply andb_true_iff in Hends as [Hhere Hrest].
    destruct p as [|c' p].
    + change ("" +:+ s +:+ q) with (s +:+ q) in Heq.
      rewrite Heq, prefix_app in Hhere. cbn [negb orb] in Hhere.
      apply String.eqb_eq in Hhere.
      apply (f_equal String.length) in Hhere.
      rewrite string_length_app in Hhere.
      destruct q; [done|]. cbn [String.length] in Hhere. lia.
    + rewrite string_app_cons in Heq. injection Heq as _ Heq.
      by apply (IH Hrest p q).
Qed.

(** ** What [_apply_suffix] returns *)

Lemma rename_pairs_generated (P : string → bool) (g : string → string)
    (l : list string) :
  rename_pairs (flat_map (λ d, if P d then [d; g d] else []) l)
  = (λ d, (d, g d)) <$> filter (λ d, P d) l.
Proof.
  induction l as [|d l IH]; [done|].
  cbn [flat_map]. rewrite filter_cons.
  destruct (decide (P d)) as [Hd|Hd].
  - apply Is_true_true in Hd. rewrite Hd.
    cbn [app rename_pairs]. by rewrite fmap_cons, IH.
  - apply Is_true_false in Hd. rewrite Hd. exact IH.
Qed.

Lemma rename_with_generated (P : string → bool) (g : string → string)
    (l : list string) a :
  rename_with ((λ d, (d, g d)) <$> filter (λ d, P d) l) a
  = if bool_decide (a ∈ l) && P a then g a else a.
Proof.
  unfold rename_with. destruct (list_find _ _) as [[i p]|] eqn:Hfind.
  - apply list_find_Some in Hfind as (Hp & Heq & _).
    apply list_elem_of_lookup_2, list_elem_of_fmap in Hp as (d & -> & Hd).
    apply list_elem_of_filter in Hd as [HP Hd]. simpl in Heq. subst d.
    rewrite bool_decide_eq_true_2 by done. by destruct (P a).
  - apply list_find_None in Hfind. rewrite Forall_forall in Hfind.
    destruct (bool_decide (a ∈ l) && P a) eqn:Hcond; [|done].
    apply andb_true_iff in Hcond as [Hin%bool_decide_eq_true_1 HP].
    exfalso. apply (Hfind (a, g a)); [|done].
    apply list_elem_of_fmap. exists a. split; [done|].
    apply list_elem_of_filter. by rewrite HP.
Qed.

(** [_relabel] adds the suffix to the columns listed in [dups] and to no
    other. *)
Lemma relabel_schema_columns x dups suffix :
  relabel_schema x dups suffix
  = mkArray ((λ d, if bool_decide (d ∈ dups) then d +:+ suffix else d)
               <$> dim_names x)
            ((λ t, (if bool_decide (att_name t ∈ dups)
                    then att_name t +:+ suffix else att_name t, t.1.2, t.2))
               <$> full_rep x).
Proof.
  unfold relabel_schema, dimension_rename_schema, attribute_rename_schema,
    relabel_args.
  cbn [dim_names full_rep].
  rewrite (rename_pairs_generated (λ d, bool_decide (d ∈ att_names x))
             (λ d, d +:+ suffix)).
  rewrite (rename_pairs_generated (λ d, bool_decide (d ∈ dim_names x))
             (λ d, d +:+ suffix)).
  f_equal.
  - apply list_fmap_ext. intros i d Hd. apply list_elem_of_lookup_2 in Hd.
    rewrite rename_with_generated.
    rewrite (bool_decide_eq_true_2 (d ∈ dim_names x)) by done.
    by rewrite andb_true_r.
  - apply list_fmap_ext. intros i t Ht. apply list_elem_of_lookup_2 in Ht.
    rewrite rename_with_generated.
    rewrite (bool_decide_eq_true_2 (att_name t ∈ att_names x))
      by (by apply list_elem_of_fmap_2).
    by rewrite andb_true_r.
Qed.

Lemma relabel_schema_shared x (mine others : gset string) suffix :
  mine = names x →
  relabel_schema x (elements (mine ∩ others)) suffix
  = suffixed_schema others suffix x.
Proof.
  intros ->. rewrite relabel_schema_columns. unfold suffixed_schema, suffixed.
  f_equal.
  - apply list_fmap_ext. intros i d Hd. apply list_elem_of_lookup_2 in Hd.
    assert (d ∈ names x) by (apply elem_of_names; by right).
    rewrite (bool_decide_ext (d ∈ elements (names x ∩ others)) (d ∈ others));
      [done|]. rewrite elem_of_elements, elem_of_intersection. tauto.
  - apply list_fmap_ext. intros i t Ht. apply list_elem_of_lookup_2 in Ht.
    assert (att_name t ∈ names x)
      by (apply elem_of_names; left; by apply list_elem_of_fmap_2).
    rewrite (bool_decide_ext (att_name t ∈ elements (names x ∩ others))
               (att_name t ∈ others)); [done|].
    rewrite elem_of_elements, elem_of_intersection. tauto.
Qed.

Lemma apply_suffix_state_columns left right left_on right_on suffixes :
  apply_suffix_state left right left_on right_on suffixes
  = (suffixed_schema (names right) suffixes.1 left,
     suffixed_schema (names left) suffixes.2 right,
     suffix_left_on left_on right_on suffixes.1,
     suffix_right_on left_on right_on suffixes.2).
Proof.
  unfold apply_suffix_state.
  rewrite (relabel_schema_shared left (names left) (names right)) by done.
  replace (names left ∩ names right) with (names right ∩ names left)
    by (apply set_eq; intros k; rewrite !elem_of_intersection; tauto).
  by rewrite (relabel_schema_shared right (names right) (names left)).
Qed.

Lemma apply_suffix_returned left right left_on right_on suffixes
    new_left new_right new_left_on new_right_on :
  returns (_apply_suffix left right left_on right_on suffixes)
          (new_left, new_right, new_left_on, new_right_on) →
  new_left = suffixed_schema (names right) suffixes.1 left
  ∧ new_right = suffixed_schema (names left) suffixes.2 right
  ∧ new_left_on = suffix_left_on left_on right_on suffixes.1
  ∧ new_right_on = suffix_right_on left_on right_on suffixes.2.
Proof.
  unfold returns. rewrite _apply_suffix_returns, apply_suffix_state_columns.
  by intros [= <- <- <- <-].
Qed.

Lemma elem_of_names_suffixed_schema others suffix x k :
  k ∈ names (suffixed_schema others suffix x)
  ↔ ∃ a, a ∈ names x ∧ k = suffixed others suffix a.
Proof.
  rewrite elem_of_names. unfold suffixed_schema, att_names. cbn [dim_names full_rep].
  rewrite <- list_fmap_compose, !list_elem_of_fmap. split.
  - intros [(t & -> & Ht)|(d & -> & Hd)].
    + exists (att_name t). split; [|done].
      apply elem_of_names. left. by apply list_elem_of_fmap_2.
    + exists d. split; [|done]. apply elem_of_names. by right.
  - intros (a & Ha & ->). apply elem_of_names in Ha as [Ha|Ha].
    + apply list_elem_of_fmap in Ha as (t & -> & Ht). left. by exists t.
    + right. by exists a.
Qed.

(** Keys that name columns before the step name columns after it, when a
    key that both arrays have is a key on both sides. *)
Lemma suffixed_keys_named left right left_on right_on suffix_left suffix_right :
  (∀ l, l ∈ left_on → l ∈ names left ∧ (l ∈ names right → l ∈ right_on)) →
  (∀ r, r ∈ right_on → r ∈ names right ∧ (r ∈ names left → r ∈ left_on)) →
  (∀ k, k ∈ suffix_left_on left_on right_on suffix_left →
        k ∈ names (suffixed_schema (names right) suffix_left left))
  ∧ (∀ k, k ∈ suffix_right_on left_on right_on suffix_right →
          k ∈ names (suffixed_schema (names left) suffix_right right)).
Proof.
  intros Hleft Hright. split.
  - intros k (l & -> & Hl)%list_elem_of_fmap.
    destruct (Hleft l Hl) as [Hmine Hshared].
    apply elem_of_names_suffixed_schema. exists l. split; [done|].
    unfold suffixed. case_bool_decide as Hkey.
    + rewrite bool_decide_eq_false_2; [done|]. intros Hin. by apply Hkey, Hshared.
    + rewrite bool_decide_eq_true_2; [done|].
      destruct (decide (l ∈ right_on)) as [Hin|Hout]; [|done].
      by apply Hright.
  - intros k (r & -> & Hr)%list_elem_of_fmap.
    destruct (Hright r Hr) as [Hmine Hshared].
    apply elem_of_names_suffixed_schema. exists r. split; [done|].
    unfold suffixed. case_bool_decide as Hkey.
    + rewrite bool_decide_eq_false_2; [done|]. intros Hin. by apply Hkey, Hshared.
    + rewrite bool_decide_eq_true_2; [done|].
      destruct (decide (r ∈ left_on)) as [Hin|Hout]; [|done].
      by apply Hleft.
Qed.


(** X2: when every key names a column of its side and a key that the other
    array also has is a key there too (as for a join on [on]), every
    returned key names a column of the returned array of its side. *)
Theorem apply_suffix_keys_name_columns left right left_on right_on suffixes
    new_left new_right new_left_on new_right_on :
  returns (_apply_suffix left right left_on right_on suffixes)
          (new_left, new_right, new_left_on, new_right_on) →
  (∀ l, l ∈ left_on → l ∈ names left ∧ (l ∈ names right → l ∈ right_on)) →
  (∀ r, r ∈ right_on → r ∈ names right ∧ (r ∈ names left → r ∈ left_on)) →
  (∀ k, k ∈ new_left_on → k ∈ names new_left)
  ∧ (∀ k, k ∈ new_right_on → k ∈ names new_right).
Proof.
  intros Hrun Hleft Hright.
  apply apply_suffix_returned in Hrun as (-> & -> & -> & ->).
  by apply suffixed_keys_named.
Qed.

Lemma apply_suffix_keys_name_columns_witness :
  returns (_apply_suffix Sample.people Sample.scores ["id"] ["id"] Sample.suffixes)
          (Sample.people_x, Sample.scores_y, ["id_x"], ["id_y"])
  ∧ (∀ k, k ∈ ["id_x"] → k ∈ names Sample.people_x)
  ∧ (∀ k, k ∈ ["id_y"] → k ∈ names Sample.scores_y).
Proof.
  assert (returns (_apply_suffix Sample.people Sample.scores ["id"] ["id"]
                     Sample.suffixes)
                  (Sample.people_x, Sample.scores_y, ["id_x"], ["id_y"])) as Hrun
    by (vm_compute; reflexivity).
  split; [exact Hrun|].
  apply (apply_suffix_keys_name_columns Sample.people Sample.scores ["id"] ["id"]
           Sample.suffixes _ _ _ _ Hrun).
  - intros l ->%list_elem_of_singleton. split; [|intros _; by left].
    apply (bool_decide_unpack _). vm_compute. exact I.
  - intros r ->%list_elem_of_singleton. split; [|intros _; by left].
    apply (bool_decide_unpack _). vm_compute. exact I.
Defined.

(** X3: when neither suffix ends with the other, and no array already has
    a shared name followed by a suffix, the two returned arrays have no name
    in common. *)
Theorem apply_suffix_disambiguates left right left_on right_on suffixes
    new_left new_right new_left_on new_right_on :
  returns (_apply_suffix left right left_on right_on suffixes)
          (new_left, new_right, new_left_on, new_right_on) →
  (∀ u, suffixes.1 ≠ u +:+ suffixes.2) →
  (∀ u, suffixes.2 ≠ u +:+ suffixes.1) →
  (∀ d, d ∈ names left → d ∈ names right →
        (d +:+ suffixes.1 ∉ names right) ∧ (d +:+ suffixes.2 ∉ names left)) →
  names new_left ∩ names new_right = ∅.
Proof.
  intros (-> & -> & _ & _)%apply_suffix_returned Hs1 Hs2 Hfree.
  apply set_eq. intros k. rewrite elem_of_intersection.
  split; [|by intros ?%elem_of_empty].
  rewrite !elem_of_names_suffixed_schema.
  intros [(a & Ha & ->) (b & Hb & Heq)]. exfalso. unfold suffixed in Heq.
  repeat case_bool_decide.
  - apply suffixed_names_agree in Heq as [[u Hu]|[u Hu]];
      [by apply (Hs1 u)|by apply (Hs2 u)].
  - subst b. by destruct (Hfree a) as [Hn _].
  - subst a. by destruct (Hfree b) as [_ Hn].
  - by subst b.
Qed.

Lemma apply_suffix_disambiguates_witness :
  returns (_apply_suffix Sample.people Sample.scores ["id"] ["id"] Sample.suffixes)
          (Sample.people_x, Sample.scores_y, ["id_x"], ["id_y"])
  ∧ names Sample.people_x ∩ names Sample.scores_y = ∅.
Proof.
  assert (returns (_apply_suffix Sample.people Sample.scores ["id"] ["id"]
                     Sample.suffixes)
                  (Sample.people_x, Sample.scores_y, ["id_x"], ["id_y"])) as Hrun
    by (vm_compute; reflexivity).
  split; [exact Hrun|].
  apply (apply_suffix_disambiguates Sample.people Sample.scores ["id"] ["id"]
           Sample.suffixes _ _ _ _ Hrun).
  - by apply suffix_differs.
  - by apply suffix_differs.
  - intros d Hd _. apply elem_of_names in Hd. cbn in Hd.
    assert (d = "id" ∨ d = "v" ∨ d = "i") as [-> | [-> | ->]].
    { destruct Hd as [Hd|Hd].
      - apply elem_of_cons in Hd as [->|Hd]; [by left|].
        apply list_elem_of_singleton in Hd. right. by left.
      - apply list_elem_of_singleton in Hd. right. by right. }
    all: split; apply (bool_decide_unpack _); vm_compute; exact I.
Defined.

(** X4: a left key that is no right key, although the right array has a
    column of that name, is returned unsuffixed while the column it named is
    renamed: the returned key names no column of the returned left array
    (unless another column, once suffixed, takes its name). *)
Theorem apply_suffix_leaves_key_dangling left right left_on right_on suffixes
    new_left new_right new_left_on new_right_on l :
  returns (_apply_suffix left right left_on right_on suffixes)
          (new_left, new_right, new_left_on, new_right_on) →
  l ∈ left_on → l ∉ right_on →
  l ∈ names right →
  (∀ d, d ∈ names left → d +:+ suffixes.1 ≠ l) →
  l ∈ new_left_on ∧ l ∉ names new_left.
Proof.
  intros (-> & -> & -> & ->)%apply_suffix_returned Hl Hkey Hright Hfree. split.
  - apply list_elem_of_fmap. exists l. by rewrite bool_decide_eq_true_2.
  - intros (a & Ha & Heq)%elem_of_names_suffixed_schema.
    unfold suffixed in Heq. case_bool_decide as Hshared.
    + by apply (Hfree a).
    + by subst a.
Qed.

Lemma apply_suffix_leaves_key_dangling_witness :
  returns (_apply_suffix Cases.orders Cases.items ["a"] ["b"] Sample.suffixes)
          (mkArray ["i"] [("a_x", "int64", false); ("v", "string", false)],
           mkArray ["j"] [("a_y", "int64", false); ("b", "int64", false)],
           ["a"], ["b"])
  ∧ "a" ∈ ["a"]
  ∧ "a" ∉ names (mkArray ["i"] [("a_x", "int64", false); ("v", "string", false)]).
Proof.
  assert (returns (_apply_suffix Cases.orders Cases.items ["a"] ["b"]
                     Sample.suffixes)
                  (mkArray ["i"] [("a_x", "int64", false); ("v", "string", false)],
                   mkArray ["j"] [("a_y", "int64", false); ("b", "int64", false)],
                   ["a"], ["b"])) as Hrun
    by (vm_compute; reflexivity).
  split; [exact Hrun|].
  apply (apply_suffix_leaves_key_dangling Cases.orders Cases.items ["a"] ["b"]
           Sample.suffixes _ _ _ _ "a" Hrun).
  - by left.
  - apply (bool_decide_unpack _). vm_compute. exact I.
  - apply (bool_decide_unpack _). vm_compute. exact I.
  - intros d Hd. apply elem_of_names in Hd. cbn in Hd.
    assert (d = "a" ∨ d = "v" ∨ d = "i") as [-> | [-> | ->]]; [|done..].
    destruct Hd as [Hd|Hd].
    + apply elem_of_cons in Hd as [->|Hd]; [by left|].
      apply list_elem_of_singleton in Hd. right. by left.
    + apply list_elem_of_singleton in Hd. right. by right.
Defined.

(** ** The suffix clean-up of [merge] *)

Lemma cleaned_schema_columns result suffixes :
  cleaned_schema result suffixes
  = mkArray (dim_names result)
            ((λ t, (cleaned_name (att_names result) suffixes (att_name t),
                    t.1.2, t.2)) <$> full_rep result).
Proof.
  unfold cleaned_schema, attribute_rename_schema, cleanup_renames.
  rewrite (rename_pairs_generated
             (λ a, PyStr.endswith a suffixes.1
                   && bool_decide (PyStr.replace a suffixes.1 suffixes.2
                                     ∉ att_names result))
             (λ a, PyStr.replace a suffixes.1 "")).
  f_equal. apply list_fmap_ext. intros i t Ht.
  rewrite rename_with_generated. unfold cleaned_name.
  rewrite bool_decide_eq_true_2; [done|].
  apply list_elem_of_lookup_2 in Ht. by apply list_elem_of_fmap_2.
Qed.

Lemma full_rep_eta (rep : list (string * string * bool)) :
  (λ t, (att_name t, t.1.2, t.2)) <$> rep = rep.
Proof.
  induction rep as [|[[nm typ] nullable] rep IH]; [done|]. by rewrite fmap_cons, IH.
Qed.

(** X5: with an empty left suffix the clean-up renames nothing: every
    attribute name ends with the empty string, and replacing the empty
    string by nothing gives the name back, so the schema is returned as it
    was. *)
Theorem drop_suffixes_empty_left_suffix result suffix_right :
  returns (drop_suffixes result ("", suffix_right)) result.
Proof.
  unfold returns. rewrite drop_suffixes_returns, cleaned_schema_columns.
  f_equal. destruct result as [dims rep]. cbn [dim_names full_rep]. f_equal.
  rewrite <- (full_rep_eta rep) at 2. apply list_fmap_ext. intros i t _.
  unfold cleaned_name. cbn [fst snd PyStr.replace].
  rewrite intersperse_nil. by destruct (_ && _).
Qed.

(** X6: an attribute named [b] followed by the left suffix, the suffix
    occurring nowhere else in the name, is returned as [b] when the result
    has no attribute [b] followed by the right suffix, and under its
    suffixed name otherwise; its position, type and nullability, and the
    dimensions of the result, are kept. *)
Theorem drop_suffixes_strips_unneeded_suffix result suffixes i t b :
  full_rep result !! i = Some t →
  att_name t = b +:+ suffixes.1 →
  suffixes.1 ≠ "" →
  only_at_end suffixes.1 (b +:+ suffixes.1) →
  ∃ cleaned,
    returns (drop_suffixes result suffixes) cleaned
    ∧ dim_names cleaned = dim_names result
    ∧ full_rep cleaned !! i
      = Some (if bool_decide (b +:+ suffixes.2 ∈ att_names result)
              then b +:+ suffixes.1 else b, t.1.2, t.2).
Proof.
  intros Ht Hname Hs Honly. eexists. split; [apply drop_suffixes_returns|].
  rewrite cleaned_schema_columns. cbn [dim_names full_rep]. split; [done|].
  rewrite list_lookup_fmap, Ht. cbn [fmap option_fmap option_map].
  unfold cleaned_name. rewrite Hname, endswith_app.
  rewrite !replace_at_end by done. rewrite string_app_nil_r. cbn [andb].
  destruct (decide (b +:+ suffixes.2 ∈ att_names result)) as [Hin|Hout].
  - rewrite bool_decide_eq_false_2 by (intros Hn; by apply Hn).
    by rewrite bool_decide_eq_true_2.
  - rewrite bool_decide_eq_true_2 by done. by rewrite bool_decide_eq_false_2.
Qed.

Lemma drop_suffixes_strips_unneeded_suffix_witness :
  ∃ cleaned,
    returns (drop_suffixes Cases.joined Sample.suffixes) cleaned
    ∧ dim_names cleaned = ["_row"]
    ∧ full_rep cleaned !! 1%nat = Some ("id", "int64", false).
Proof.
  apply (drop_suffixes_strips_unneeded_suffix Cases.joined Sample.suffixes 1
           ("id_x", "int64", false) "id").
  - reflexivity.
  - reflexivity.
  - discriminate.
  - apply ends_only_correct. vm_compute. reflexivity.
Defined.

(** X7: an attribute whose name does not end with the left suffix is
    returned as it is, at its position. *)
Theorem drop_suffixes_keeps_other_names result suffixes i t :
  full_rep result !! i = Some t →
  (∀ b, att_name t ≠ b +:+ suffixes.1) →
  ∃ cleaned,
    returns (drop_suffixes result suffixes) cleaned
    ∧ full_rep cleaned !! i = Some t.
Proof.
  intros Ht Hname. eexists. split; [apply drop_suffixes_returns|].
  rewrite cleaned_schema_columns. cbn [full_rep].
  rewrite list_lookup_fmap, Ht. cbn [fmap option_fmap option_map].
  unfold cleaned_name.
  destruct (PyStr.endswith (att_name t) suffixes.1) eqn:Hends.
  - apply endswith_inv in Hends as [b Hb]. by destruct (Hname b).
  - cbn [andb]. by destruct t as [[nm typ] nullable].
Qed.

Lemma drop_suffixes_keeps_other_names_witness :
  ∃ cleaned,
    returns (drop_suffixes Cases.joined Sample.suffixes) cleaned
    ∧ full_rep cleaned !! 3%nat = Some ("v", "string", false).
Proof.
  apply (drop_suffixes_keeps_other_names Cases.joined Sample.suffixes 3
           ("v", "string", false)).
  - reflexivity.
  - apply shorter_than_suffix. cbn. lia.
Defined.

(** ** The columns [merge] returns *)

Lemma elem_of_keep_set left1 right1 left_on1 right_on1 x :
  x ∈ keep_set (left1, right1, left_on1, right_on1)
  ↔ (x ∈ names left1 ∨ x ∈ names right1) ∧ x ∉ right_on1.
Proof.
  unfold keep_set. rewrite elem_of_difference, !elem_of_union, !elem_of_names,
    !elem_of_list_to_set. tauto.
Qed.

Lemma elem_of_suffix_right_on_same keys suffix x :
  x ∈ suffix_right_on keys keys suffix ↔ ∃ r, r ∈ keys ∧ x = r +:+ suffix.
Proof.
  unfold suffix_right_on. rewrite list_elem_of_fmap. split.
  - intros (r & -> & Hr). exists r. split; [done|].
    by rewrite bool_decide_eq_false_2 by (intros Hn; by apply Hn).
  - intros (r & Hr & ->). exists r. split; [|done].
    by rewrite bool_decide_eq_false_2 by (intros Hn; by apply Hn).
Qed.

Lemma att_names_cleaned_schema result suffixes :
  att_names (cleaned_schema result suffixes)
  = cleaned_name (att_names result) suffixes <$> att_names result.
Proof.
  rewrite cleaned_schema_columns. unfold att_names at 1. cbn [full_rep].
  unfold att_names. by rewrite <- !list_fmap_compose.
Qed.

(** A successful inner join on [on]: the keys name columns of both arrays
    and the handle is the cleaned projection. *)
Lemma merge_on_returned alloc left right on suffixes result :
  truthy (Some on) = true →
  returns (merge alloc left right (Some on) None None "inner" suffixes) result →
  (∀ k, k ∈ as_list on → k ∈ names left ∧ k ∈ names right)
  ∧ result = cleaned_schema
               (projected_schema alloc left right (as_list on) (as_list on) suffixes)
               suffixes.
Proof.
  intros Hon Hrun.
  apply merge_returned in Hrun as (_ & Hgood & _ & Hret).
  assert (resolved_keys left right (Some on) None None = (as_list on, as_list on))
    as Hkeys by (unfold resolved_keys; by rewrite Hon).
  rewrite Hkeys in Hret. cbn [fst snd] in Hret. split; [|done].
  intros k Hk. split.
  - destruct (decide (k ∈ names left)) as [|Hout]; [done|]. exfalso.
    apply Hgood. do 4 right. left. exists k. by rewrite Hkeys.
  - destruct (decide (k ∈ names right)) as [|Hout]; [done|]. exfalso.
    apply Hgood. do 5 right. exists k. by rewrite Hkeys.
Qed.

(** The attributes of the projection of a join on [on]. *)
Lemma projected_on_columns alloc left right keys suffixes :
  (∀ hint x, alloc hint x ∉ names x) →
  ∀ x, x ∈ att_names (projected_schema alloc left right keys keys suffixes)
       ↔ (x ∈ names (suffixed_schema (names right) suffixes.1 left)
          ∨ x ∈ names (suffixed_schema (names left) suffixes.2 right))
         ∧ x ∉ suffix_right_on keys keys suffixes.2.
Proof.
  intros Hfresh x.
  pose proof (projected_schema_columns alloc left right keys keys suffixes Hfresh)
    as Hcols.
  rewrite apply_suffix_state_columns in Hcols.
  by rewrite <- elem_of_keep_set, <- Hcols, elem_of_list_to_set.
Qed.





(** X8: in a successful inner join on [on] (the suffixes not ending with
    one another, the left suffix occurring only at the end of the suffixed
    key, the name allocator keeping its guarantee), every join key is an
    attribute of the returned array under its own, unsuffixed name. *)
Theorem merge_on_returns_key_unsuffixed alloc left right on k suffixes result :
  (∀ hint x, alloc hint x ∉ names x) →
  truthy (Some on) = true →
  k ∈ as_list on →
  (∀ u, suffixes.1 ≠ u +:+ suffixes.2) →
  (∀ u, suffixes.2 ≠ u +:+ suffixes.1) →
  only_at_end suffixes.1 (k +:+ suffixes.1) →
  returns (merge alloc left right (Some on) None None "inner" suffixes) result →
  k ∈ att_names result.
Proof.
  intros Hfresh Hon Hk Hs1 Hs2 Honly Hrun.
  destruct (merge_on_returned _ _ _ _ _ _ Hon Hrun) as [Hkeys ->].
  destruct (Hkeys k Hk) as [Hkl Hkr].
  pose proof (projected_on_columns alloc left right (as_list on) suffixes Hfresh)
    as Hin.
  set (projected := projected_schema alloc left right (as_list on) (as_list on)
                      suffixes) in *.
  assert (k +:+ suffixes.1 ∈ att_names projected) as Hkept.
  { apply Hin. split.
    - left. apply elem_of_names_suffixed_schema. exists k. split; [done|].
      unfold suffixed. by rewrite bool_decide_eq_true_2.
    - intros (r & Hr & Heq)%elem_of_suffix_right_on_same.
      apply suffixed_names_agree in Heq as [[u Hu]|[u Hu]];
        [by apply (Hs1 u)|by apply (Hs2 u)]. }
  assert (k +:+ suffixes.2 ∉ att_names projected) as Hdropped.
  { intros [_ Hnot]%Hin. apply Hnot.
    apply elem_of_suffix_right_on_same. by exists k. }
  rewrite att_names_cleaned_schema.
  apply list_elem_of_fmap. exists (k +:+ suffixes.1). split; [|done].
  unfold cleaned_name. rewrite endswith_app.
  rewrite !replace_at_end by (by eauto using suffix_nonempty).
  rewrite bool_decide_eq_true_2 by done. by rewrite string_app_nil_r.
Qed.

Lemma merge_on_returns_key_unsuffixed_witness :
  returns (merge fresh_label Sample.people Sample.scores (Some (KName "id"))
             None None "inner" Sample.suffixes)
          (mkArray ["_row"]
             [("i_x", "int64", false); ("id", "int64", false);
              ("i_y", "int64", false); ("v", "string", false);
              ("w", "string", false)])
  ∧ "id" ∈ att_names
             (mkArray ["_row"]
                [("i_x", "int64", false); ("id", "int64", false);
                 ("i_y", "int64", false); ("v", "string", false);
                 ("w", "string", false)]).
Proof.
  assert (returns (merge fresh_label Sample.people Sample.scores
                     (Some (KName "id")) None None "inner" Sample.suffixes)
                  (mkArray ["_row"]
                     [("i_x", "int64", false); ("id", "int64", false);
                      ("i_y", "int64", false); ("v", "string", false);
                      ("w", "string", false)])) as Hrun
    by (vm_compute; reflexivity).
  split; [exact Hrun|].
  apply (merge_on_returns_key_unsuffixed fresh_label Sample.people Sample.scores
           (KName "id") "id" Sample.suffixes _ fresh_label_fresh).
  - reflexivity.
  - by left.
  - by apply suffix_differs.
  - by apply suffix_differs.
  - apply ends_only_correct. vm_compute. reflexivity.
  - exact Hrun.
Defined.

(** X9: in a successful inner join on [on], under the same conditions on
    the suffixes, a column that both arrays have and that is no join key is
    returned twice, once under each suffix: the clean-up leaves both. *)
Theorem merge_keeps_shared_column_suffixed alloc left right on a suffixes result :
  (∀ hint x, alloc hint x ∉ names x) →
  truthy (Some on) = true →
  a ∉ as_list on → a ∈ names left → a ∈ names right →
  (∀ u, suffixes.1 ≠ u +:+ suffixes.2) →
  (∀ u, suffixes.2 ≠ u +:+ suffixes.1) →
  only_at_end suffixes.1 (a +:+ suffixes.1) →
  returns (merge alloc left right (Some on) None None "inner" suffixes) result →
  a +:+ suffixes.1 ∈ att_names result ∧ a +:+ suffixes.2 ∈ att_names result.
Proof.
  intros Hfresh Hon Ha Hal Har Hs1 Hs2 Honly Hrun.
  destruct (merge_on_returned _ _ _ _ _ _ Hon Hrun) as [Hkeys ->].
  pose proof (projected_on_columns alloc left right (as_list on) suffixes Hfresh)
    as Hin.
  set (projected := projected_schema alloc left right (as_list on) (as_list on)
                      suffixes) in *.
  assert (a +:+ suffixes.1 ∈ att_names projected) as Hleft.
  { apply Hin. split.
    - left. apply elem_of_names_suffixed_schema. exists a. split; [done|].
      unfold suffixed. by rewrite bool_decide_eq_true_2.
    - intros (r & Hr & Heq)%elem_of_suffix_right_on_same.
      apply suffixed_names_agree in Heq as [[u Hu]|[u Hu]];
        [by apply (Hs1 u)|by apply (Hs2 u)]. }
  assert (a +:+ suffixes.2 ∈ att_names projected) as Hright.
  { apply Hin. split.
    - right. apply elem_of_names_suffixed_schema. exists a. split; [done|].
      unfold suffixed. by rewrite bool_decide_eq_true_2.
    - intros (r & Hr & Heq)%elem_of_suffix_right_on_same.
      apply string_app_inj_r in Heq. by subst r. }
  rewrite att_names_cleaned_schema. split.
  - apply list_elem_of_fmap. exists (a +:+ suffixes.1). split; [|done].
    unfold cleaned_name. rewrite endswith_app.
    rewrite !replace_at_end by (by eauto using suffix_nonempty).
    by rewrite bool_decide_eq_false_2 by (intros Hn; by apply Hn).
  - apply list_elem_of_fmap. exists (a +:+ suffixes.2). split; [|done].
    unfold cleaned_name.
    destruct (PyStr.endswith (a +:+ suffixes.2) suffixes.1) eqn:Hends; [|done].
    apply endswith_inv in Hends as [b Hb].
    apply suffixed_names_agree in Hb as [[u Hu]|[u Hu]];
      [by destruct (Hs2 u)|by destruct (Hs1 u)].
Qed.

Lemma merge_keeps_shared_column_suffixed_witness :
  returns (merge fresh_label Cases.spring Cases.autumn (Some (KName "id"))
             None None "inner" Sample.suffixes)
          (mkArray ["_row"]
             [("i", "int64", false); ("id", "int64", false);
              ("j", "int64", false); ("score_x", "double", false);
              ("score_y", "double", false)])
  ∧ "score_x" ∈ att_names
                  (mkArray ["_row"]
                     [("i", "int64", false); ("id", "int64", false);
                      ("j", "int64", false); ("score_x", "double", false);
                      ("score_y", "double", false)])
  ∧ "score_y" ∈ att_names
                  (mkArray ["_row"]
                     [("i", "int64", false); ("id", "int64", false);
                      ("j", "int64", false); ("score_x", "double", false);
                      ("score_y", "double", false)]).
Proof.
  assert (returns (merge fresh_label Cases.spring Cases.autumn
                     (Some (KName "id")) None None "inner" Sample.suffixes)
                  (mkArray ["_row"]
                     [("i", "int64", false); ("id", "int64", false);
                      ("j", "int64", false); ("score_x", "double", false);
                      ("score_y", "double", false)])) as Hrun
    by (vm_compute; reflexivity).
  split; [exact Hrun|].
  apply (merge_keeps_shared_column_suffixed fresh_label Cases.spring Cases.autumn
           (KName "id") "score" Sample.suffixes _ fresh_label_fresh).
  - reflexivity.
  - apply (bool_decide_unpack _). vm_compute. exact I.
  - apply (bool_decide_unpack _). vm_compute. exact I.
  - apply (bool_decide_unpack _). vm_compute. exact I.
  - by apply suffix_differs.
  - by apply suffix_differs.
  - apply ends_only_correct. vm_compute. reflexivity.
  - exact Hrun.
Defined.

(** ** Validation of the keys *)


Lemma check_names_first msg (pre post : list string) k (present : gset string) :
  (∀ x, x ∈ pre → x ∈ present) → k ∉ present →
  check_names msg (pre ++ k :: post) present
  = ([], Raise (ValueError (msg +:+ k))).
Proof.
  intros Hpre Hk. induction pre as [|x pre IH]; cbn [app check_names].
  - by rewrite bool_decide_eq_true_2.
  - rewrite bool_decide_eq_false_2.
    + apply IH. intros y Hy. apply Hpre. by right.
    + intros Hn. apply Hn, Hpre. by left.
Qed.

Lemma resolve_keys_pair lnames rnames left_on right_on :
  length (as_list left_on) = length (as_list right_on) →
  resolve_keys lnames rnames None (Some left_on) (Some right_on)
  = ([], Return (as_list left_on, as_list right_on)).
Proof.
  intros Hlen. unfold resolve_keys. cbn [andb orb].
  replace (bool_decide (None ≠ None)) with false by done.
  rewrite andb_false_r.
  by rewrite bool_decide_eq_false_2 by (intros Hn; by apply Hn).
Qed.

(** X11: with [left_on] and [right_on] of equal length, the first left key
    that is no column of the left array is the one reported: [merge] raises
    the invalid-left-name error for it after the four schema reads, whatever
    the later keys and the right keys are. *)
Theorem merge_reports_first_missing_left_key alloc left right left_on right_on
    pre k post suffixes :
  as_list left_on = pre ++ k :: post →
  length (as_list left_on) = length (as_list right_on) →
  (∀ x, x ∈ pre → x ∈ names left) →
  k ∉ names left →
  merge alloc left right None (Some left_on) (Some right_on) "inner" suffixes
  = (schema_reads left right,
     Raise (ValueError ("Left array join name is invalid: " +:+ k))).
Proof.
  intros Hsplit Hlen Hpre Hk.
  rewrite merge_inner_run, (resolve_keys_pair _ _ _ _ Hlen).
  rewrite ret_bind, Hsplit, (check_names_first _ _ _ _ _ Hpre Hk), raise_bind.
  reflexivity.
Qed.

Lemma merge_reports_first_missing_left_key_witness :
  merge fresh_label Sample.people Sample.scores None
    (Some (KNames ["id"; "zz"; "yy"])) (Some (KNames ["id"; "w"; "xx"]))
    "inner" Sample.suffixes
  = (schema_reads Sample.people Sample.scores,
     Raise (ValueError "Left array join name is invalid: zz")).
Proof.
  apply (merge_reports_first_missing_left_key fresh_label Sample.people
           Sample.scores (KNames ["id"; "zz"; "yy"]) (KNames ["id"; "w"; "xx"])
           ["id"] "zz" ["yy"] Sample.suffixes).
  - reflexivity.
  - reflexivity.
  - intros x ->%list_elem_of_singleton.
    apply (bool_decide_unpack _). vm_compute. exact I.
  - apply (bool_decide_unpack _). vm_compute. exact I.
Defined.

(** X12: when every left key names a column of the left array, the first
    right key that is no column of the right array is the one reported,
    after the four schema reads. *)
Theorem merge_reports_first_missing_right_key alloc left right left_on right_on
    pre k post suffixes :
  as_list right_on = pre ++ k :: post →
  length (as_list left_on) = length (as_list right_on) →
  (∀ x, x ∈ as_list left_on → x ∈ names left) →
  (∀ x, x ∈ pre → x ∈ names right) →
  k ∉ names right →
  merge alloc left right None (Some left_on) (Some right_on) "inner" suffixes
  = (schema_reads left right,
     Raise (ValueError ("Right array join name is invalid: " +:+ k))).
Proof.
  intros Hsplit Hlen Hleft Hpre Hk.
  rewrite merge_inner_run, (resolve_keys_pair _ _ _ _ Hlen).
  rewrite ret_bind, (check_names_pass _ _ _ Hleft), ret_bind.
  rewrite Hsplit, (check_names_first _ _ _ _ _ Hpre Hk), raise_bind.
  reflexivity.
Qed.

Lemma merge_reports_first_missing_right_key_witness :
  merge fresh_label Sample.people Sample.scores None
    (Some (KNames ["id"; "v"])) (Some (KNames ["id"; "zz"]))
    "inner" Sample.suffixes
  = (schema_reads Sample.people Sample.scores,
     Raise (ValueError "Right array join name is invalid: zz")).
Proof.
  apply (merge_reports_first_missing_right_key fresh_label Sample.people
           Sample.scores (KNames ["id"; "v"]) (KNames ["id"; "zz"])
           ["id"] "zz" [] Sample.suffixes).
  - reflexivity.
  - reflexivity.
  - intros x Hx. cbn in Hx.
    apply elem_of_cons in Hx as [-> | ->%list_elem_of_singleton];
      apply (bool_decide_unpack _); vm_compute; exact I.
  - intros x ->%list_elem_of_singleton.
    apply (bool_decide_unpack _). vm_compute. exact I.
  - apply (bool_decide_unpack _). vm_compute. exact I.
Defined.

(** ** The key materializer without surrogates *)

Lemma join_keys_loop_all_skipped alloc dt i left_on right_on st :
  (∀ l, l ∈ left_on → skips_surrogate dt l = true) →
  join_keys_loop alloc dt i left_on right_on st = ([], Return st).
Proof.
  revert i right_on. induction left_on as [|l left_on IH];
    intros i [|r right_on] Hskip; try reflexivity.
  cbn [join_keys_loop]. rewrite Hskip by (by left).
  change (mret st) with (([], Return st) : M JoinState). rewrite ret_bind.
  apply IH. intros l' Hl'. apply Hskip. by right.
Qed.

(** X13: when every left key has an integer declared type, no surrogate is
    built, whatever the right keys are: line 21 tests the type of the left
    key only.  The schema of the left array is read once and the given key
    lists go to the promotion as they stand; the call returns them when
    every right key can become a dimension of the right array, and passes on
    the failure of the promotion of the right keys otherwise. *)
Theorem prepare_join_schema_integer_keys alloc left right left_on right_on :
  NoDup (att_names left) →
  (∀ l, l ∈ left_on →
        ∃ typ, declared_type left l = Some typ ∧ integer_type typ = true) →
  _prepare_join_schema alloc left right left_on right_on
  = ([Read "sdbtype.full_rep" left; Debug "dimensionify";
      Invoke "to_dimensions" left_on; Invoke "to_dimensions" right_on],
     if forallb (promotable right) right_on
     then Return (to_dimensions_schema left left_on,
                  to_dimensions_schema right right_on, left_on, right_on)
     else Raise (Propagated "to_dimensions")).
Proof.
  intros Hnodup Hint. unfold _prepare_join_schema.
  rewrite (bind_run (get_full_rep left) _ (full_rep left)) by reflexivity.
  rewrite join_keys_loop_all_skipped.
  - rewrite ret_bind, !to_dimensions_run.
    assert (forallb (promotable left) left_on = true) as ->.
    { apply forallb_elem_of. intros l Hl.
      destruct (Hint l Hl) as (typ & Htyp & Hinteger).
      unfold promotable. by rewrite Htyp. }
    by destruct (forallb (promotable right) right_on).
  - intros l Hl. destruct (Hint l Hl) as (typ & Htyp & Hinteger).
    by rewrite (skips_surrogate_declared left l typ).
Qed.

Lemma prepare_join_schema_integer_keys_witness :
  _prepare_join_schema fresh_label Sample.people Sample.scores ["id"] ["w"]
  = ([Read "sdbtype.full_rep" Sample.people; Debug "dimensionify";
      Invoke "to_dimensions" ["id"]; Invoke "to_dimensions" ["w"]],
     Raise (Propagated "to_dimensions")).
Proof.
  apply (prepare_join_schema_integer_keys fresh_label Sample.people
           Sample.scores ["id"] ["w"]).
  - apply (bool_decide_unpack _). vm_compute. exact I.
  - intros l ->%list_elem_of_singleton. exists "int64". split; reflexivity.
Defined.
